(** * disc-append: the media-info report parser and the capacity resolver

    A shallow embedding of [build_media_info_tree] and [parse_media_info]
    of [disc_append.py], and the properties of the report parser that the
    specification states about them.

    Python values are modelled as follows.
    - [str] is [string]; a character is a code point below 256.
    - [int] is [Z].
    - [dict] is an association list without repeated keys, in insertion
      order: assigning to a key that is present replaces the value where
      it stands, assigning to a new key appends.
    - A raised exception is the [Raise] alternative of [result]. *)

From Stdlib Require Import ZArith List Bool Lia.
From Stdlib Require Import Strings.String Strings.Ascii.
From Stdlib Require Import Numbers.DecimalString.
Import ListNotations.

Local Open Scope string_scope.
Local Open Scope Z_scope.

(** ** Exceptions *)

Inductive exn : Type :=
| KeyError
| TypeError
| ValueError
| AttributeError
| UnboundLocalError.

Inductive result (A : Type) : Type :=
| Ok (a : A)
| Raise (e : exn).

Arguments Ok {A} a.
Arguments Raise {A} e.

Definition bind {A B : Type} (r : result A) (k : A -> result B) : result B :=
  match r with
  | Ok a => k a
  | Raise e => Raise e
  end.

Notation "x <- r ;; k" := (bind r (fun x => k))
  (at level 61, r at next level, right associativity).

Definition returns {A : Type} (r : result A) : Prop := exists a, r = Ok a.
Definition raises {A : Type} (r : result A) : Prop := exists e, r = Raise e.

(** ** The [str] methods the program calls *)

Module PyStr.

Definition code (c : ascii) : N := N_of_ascii c.

Definition between (lo hi : N) (c : ascii) : bool :=
  ((lo <=? code c) && (code c <=? hi))%N.

(** [str.isspace] on one character: the code points below 256 that
    [strip] removes. *)
Definition isspace (c : ascii) : bool :=
  between 9 13 c || between 28 32 c || (code c =? 133)%N || (code c =? 160)%N.

Fixpoint lstrip (s : string) : string :=
  match s with
  | EmptyString => EmptyString
  | String c r => if isspace c then lstrip r else s
  end.

Fixpoint rstrip (s : string) : string :=
  match s with
  | EmptyString => EmptyString
  | String c r =>
      match rstrip r with
      | EmptyString => if isspace c then EmptyString else String c EmptyString
      | r' => String c r'
      end
  end.

(** [s.strip()] *)
Definition strip (s : string) : string := rstrip (lstrip s).

(** [s.split(sep)] for a separator of one character: never empty. *)
Fixpoint split (sep : ascii) (s : string) : list string :=
  match s with
  | EmptyString => [EmptyString]
  | String c r =>
      if Ascii.eqb c sep then EmptyString :: split sep r
      else match split sep r with
           | h :: t => String c h :: t
           | [] => [String c EmptyString]
           end
  end.

(** Truth value of a string: [not s] is [is_empty s]. *)
Definition is_empty (s : string) : bool :=
  match s with
  | EmptyString => true
  | String _ _ => false
  end.

(** [s[0] == c] for a non-empty [s]; an empty [s] is never asked. *)
Definition first_is (c : ascii) (s : string) : bool :=
  match s with
  | EmptyString => false
  | String a _ => Ascii.eqb a c
  end.

(** *** [int(s)]

    The whitespace [int] skips at both ends is narrower than that of
    [strip]: the separators 28 to 31 are not skipped.  After the optional
    sign come decimal digits, where one underscore may stand between two
    digits.  The interpreter's configurable limit on the number of digits
    is not modelled. *)

Definition int_space (c : ascii) : bool :=
  between 9 13 c || (code c =? 32)%N || (code c =? 133)%N || (code c =? 160)%N.

Definition digit (c : ascii) : option Z :=
  if between 48 57 c then Some (Z.of_N (code c) - 48) else None.

Definition is_underscore (c : ascii) : bool := Ascii.eqb c "_"%char.

Fixpoint all_space (s : string) : bool :=
  match s with
  | EmptyString => true
  | String c r => int_space c && all_space r
  end.

Fixpoint skip_space (s : string) : string :=
  match s with
  | EmptyString => EmptyString
  | String c r => if int_space c then skip_space r else s
  end.

(** The scan over digits and underscores: [acc] is the value read so far,
    [prev] says whether the previous character was an underscore. *)
Fixpoint int_scan (acc : Z) (prev : bool) (s : string) : option Z :=
  match s with
  | EmptyString => if prev then None else Some acc
  | String c r =>
      match digit c with
      | Some d => int_scan (10 * acc + d) false r
      | None =>
          if is_underscore c then
            if prev then None else int_scan acc true r
          else if prev then None
          else if all_space s then Some acc else None
      end
  end.

Definition int_unsigned (s : string) : option Z :=
  match s with
  | EmptyString => None
  | String c r =>
      match digit c with
      | Some d => int_scan d false r
      | None => None
      end
  end.

Definition int (s : string) : option Z :=
  match skip_space s with
  | String "+" r => int_unsigned r
  | String "-" r => option_map Z.opp (int_unsigned r)
  | s' => int_unsigned s'
  end.

End PyStr.

(** ** [dict] with string keys, in insertion order *)

Module PyDict.

Section Dict.
Context {V : Type}.

Definition dict : Type := list (string * V).

(** [d[k]], [None] standing for [KeyError] *)
Fixpoint get (k : string) (d : dict) : option V :=
  match d with
  | [] => None
  | (k', v) :: r => if String.eqb k' k then Some v else get k r
  end.

(** [d[k] = v] *)
Fixpoint set (k : string) (v : V) (d : dict) : dict :=
  match d with
  | [] => [(k, v)]
  | (k', v') :: r =>
      if String.eqb k' k then (k', v) :: r else (k', v') :: set k v r
  end.
End Dict.

Arguments dict V : clear implicits.

End PyDict.

(** ** The program *)

Definition newline : ascii := "010"%char.
Definition colon : ascii := ":"%char.
Definition space : ascii := " "%char.
Definition star : ascii := "*"%char.

(** [MediaInfoTree = dict[str, Union[str, dict[str, str]]]]: the value of a
    section is a [str] (the specification's Scalar) or a [dict] of
    sub-fields (its Group). *)
Inductive child : Type :=
| Scalar (s : string)
| Group (d : PyDict.dict string).

Definition MediaInfoTree : Type := PyDict.dict child.

Record MediaInfo : Type := mkMediaInfo {
  total_size : Z;
  free_size : Z;
  used_size : Z;
  is_blank : bool
}.

(** *** [build_media_info_tree]

    [current_child] is either [None] or the very [dict] object that the
    last header line stored in the tree: every line that is not indented
    rebinds both, and an indented line writes through [current_child].
    The reference is therefore modelled by the key the object is stored
    under, and a write through it by a write to the tree at that key, where
    [current_child_is_group] shows the object to be. *)
Record builder : Type := mkBuilder {
  media_info_tree : MediaInfoTree;
  current_child : option string
}.

Definition empty_builder : builder := mkBuilder [] None.

(** [a, b = line.split(':')]: exactly two parts, or [ValueError]. *)
Definition split_pair (line : string) : result (string * string) :=
  match PyStr.split colon line with
  | [a; b] => Ok (a, b)
  | _ => Raise ValueError
  end.

(** [current_child[k] = v] where [current_child] is the object stored at
    [ck]. *)
Definition child_set (ck k v : string) (t : MediaInfoTree) : MediaInfoTree :=
  match PyDict.get ck t with
  | Some (Group g) => PyDict.set ck (Group (PyDict.set k v g)) t
  | _ => t
  end.

(** The skipped lines: [not line.strip() or line[0] == ':'] *)
Definition skipped (line : string) : bool :=
  PyStr.is_empty (PyStr.strip line) || PyStr.first_is colon line.

(** [line[0] == ' '] *)
Definition indented (line : string) : bool := PyStr.first_is space line.

(** One turn of the loop over the lines. *)
Definition build_line (st : builder) (line : string) : result builder :=
  if skipped line then Ok st
  else if indented line then
    kv <- split_pair line ;;
    match current_child st with
    | None => Raise TypeError
    | Some ck =>
        Ok (mkBuilder
              (child_set ck (PyStr.strip (fst kv)) (PyStr.strip (snd kv))
                 (media_info_tree st))
              (Some ck))
    end
  else
    kv <- split_pair line ;;
    let child_key := PyStr.strip (fst kv) in
    let child_value := PyStr.strip (snd kv) in
    if PyStr.is_empty child_value then
      Ok (mkBuilder (PyDict.set child_key (Group []) (media_info_tree st))
            (Some child_key))
    else
      Ok (mkBuilder (PyDict.set child_key (Scalar child_value)
                       (media_info_tree st))
            None).

Fixpoint build_lines (st : builder) (lines : list string) : result builder :=
  match lines with
  | [] => Ok st
  | line :: rest => st' <- build_line st line ;; build_lines st' rest
  end.

Definition build_media_info_tree (info : string) : result MediaInfoTree :=
  st <- build_lines empty_builder (PyStr.split newline info) ;;
  Ok (media_info_tree st).

(** *** [parse_media_info] *)

(** The two statements [x, *_ = v.split('*')] and [int(x) * 2048] that the
    program repeats for each size it reads. *)
Definition before_star (v : string) : string :=
  hd EmptyString (PyStr.split star v).

Definition size_of (v : string) : result Z :=
  match PyStr.int (before_star v) with
  | Some n => Ok (n * 2048)
  | None => Raise ValueError
  end.

(** [media_info_tree[section][field]]: a missing key is [KeyError],
    indexing a [str] by a [str] is [TypeError]. *)
Definition sub_field (section field : string) (t : MediaInfoTree)
  : result string :=
  match PyDict.get section t with
  | None => Raise KeyError
  | Some (Scalar _) => Raise TypeError
  | Some (Group g) =>
      match PyDict.get field g with
      | None => Raise KeyError
      | Some v => Ok v
      end
  end.

(** The body of the [try] at the top of [parse_media_info]. *)
Definition format_capacity (t : MediaInfoTree) : result Z :=
  v <- sub_field "READ FORMAT CAPACITIES" "00h(3000)" t ;; size_of v.

(** The body of its [except KeyError]; a [dict] has no [split]. *)
Definition read_capacity (t : MediaInfoTree) : result Z :=
  match PyDict.get "READ CAPACITY" t with
  | None => Raise KeyError
  | Some (Group _) => Raise AttributeError
  | Some (Scalar v) => size_of v
  end.

Definition resolve_total_size (t : MediaInfoTree) : result Z :=
  match format_capacity t with
  | Raise KeyError => read_capacity t
  | r => r
  end.

Definition resolve_is_blank (t : MediaInfoTree) : result bool :=
  v <- sub_field "READ DISC INFORMATION" "Disc status" t ;;
  Ok (String.eqb v "blank").

(** The loop over [media_info_tree.items()]; [free] is the variable
    [free_size], [None] while it is unbound.  [KeyError] and [TypeError]
    are passed over, the [ValueError] of [int] is not. *)
Fixpoint scan_free_blocks (items : list (string * child)) (free : option Z)
  : result (option Z) :=
  match items with
  | [] => Ok free
  | (_, Scalar _) :: rest => scan_free_blocks rest free
  | (_, Group g) :: rest =>
      match PyDict.get "Free Blocks" g with
      | None => scan_free_blocks rest free
      | Some v => n <- size_of v ;; scan_free_blocks rest (Some n)
      end
  end.

Definition resolve_free_size (t : MediaInfoTree) (total : Z) (blank : bool)
  : result Z :=
  if blank then Ok total
  else
    free <- scan_free_blocks t None ;;
    match free with
    | Some n => Ok n
    | None => Raise UnboundLocalError
    end.

(** [parse_media_info] from the tree on. *)
Definition resolve (t : MediaInfoTree) : result MediaInfo :=
  total <- resolve_total_size t ;;
  blank <- resolve_is_blank t ;;
  free <- resolve_free_size t total blank ;;
  Ok (mkMediaInfo total free (total - free) blank).

Definition parse_media_info (info : string) : result MediaInfo :=
  t <- build_media_info_tree info ;; resolve t.

(** ** What the specification calls a size field: [<digits>*<rest>] *)

Module Digits.

Definition is_digit (c : ascii) : bool := PyStr.between 48 57 c.

Fixpoint all_digits (s : string) : bool :=
  match s with
  | EmptyString => true
  | String c r => is_digit c && all_digits r
  end.

(** A non-empty run of the digits [0] to [9]. *)
Definition is_digits (s : string) : bool :=
  negb (PyStr.is_empty s) && all_digits s.

(** The number a run of digits denotes, by the weight of each position. *)
Fixpoint decimal (s : string) : Z :=
  match s with
  | EmptyString => 0
  | String c r =>
      (Z.of_N (PyStr.code c) - 48) * 10 ^ Z.of_nat (String.length r)
      + decimal r
  end.

End Digits.

(** Occurrences of a character in a string. *)
Fixpoint count (c : ascii) (s : string) : nat :=
  match s with
  | EmptyString => O
  | String a r => if Ascii.eqb a c then S (count c r) else count c r
  end.

(** ** Vocabulary of the claims about a tree *)

(** The value of sub-field [field] of the Group [section]; [None] when the
    tree has no Group [section] with that sub-field. *)
Definition field_of (section field : string) (t : MediaInfoTree)
  : option string :=
  match PyDict.get section t with
  | Some (Group g) => PyDict.get field g
  | _ => None
  end.

(** Section [section] is present as a Scalar. *)
Definition is_scalar (section : string) (t : MediaInfoTree) : bool :=
  match PyDict.get section t with
  | Some (Scalar _) => true
  | _ => false
  end.

(** The Group [c] carries the sub-field ["Free Blocks"]. *)
Definition has_free_blocks (c : child) : bool :=
  match c with
  | Scalar _ => false
  | Group g =>
      match PyDict.get "Free Blocks" g with
      | Some _ => true
      | None => false
      end
  end.

Definition no_free_blocks (items : list (string * child)) : bool :=
  forallb (fun kc => negb (has_free_blocks (snd kc))) items.

(** Whatever ["Free Blocks"] value [c] carries, [int] reads the text
    before its star. *)
Definition free_blocks_readable (c : child) : bool :=
  match c with
  | Scalar _ => true
  | Group g =>
      match PyDict.get "Free Blocks" g with
      | Some v =>
          match size_of v with
          | Ok _ => true
          | Raise _ => false
          end
      | None => true
      end
  end.

Definition all_readable (items : list (string * child)) : bool :=
  forallb (fun kc => free_blocks_readable (snd kc)) items.


(** ** Vocabulary of the claims about the lines of a report *)

Definition lines_of (info : string) : list string :=
  PyStr.split newline info.

(** The section name a line sets: the line is neither skipped nor
    indented, and has one colon. *)
Definition section_key (line : string) : option string :=
  if skipped line || indented line then None
  else match PyStr.split colon line with
       | [a; _] => Some (PyStr.strip a)
       | _ => None
       end.

(** The text after the first colon, trimmed. *)
Definition value_part (line : string) : string :=
  PyStr.strip (nth 1 (PyStr.split colon line) EmptyString).

(** A line with nothing after its colon. *)
Definition is_header (line : string) : bool :=
  PyStr.is_empty (value_part line).

Definition one_colon (line : string) : bool :=
  Nat.eqb (count colon line) 1.

(** A Group is open. *)
Definition is_open (st : builder) : bool :=
  match current_child st with
  | Some _ => true
  | None => false
  end.

(** Every line that is not skipped has one colon, and an indented line
    comes only while a Group is open; [open] says whether one is. *)
Fixpoint well_formed (open : bool) (lines : list string) : bool :=
  match lines with
  | [] => true
  | line :: rest =>
      if skipped line then well_formed open rest
      else
        one_colon line
        && (if indented line then open && well_formed open rest
            else well_formed (is_header line) rest)
  end.

(** Two builders with the same open Group and the same value at [key]. *)
Definition agree (key : string) (s1 s2 : builder) : Prop :=
  current_child s1 = current_child s2
  /\ PyDict.get key (media_info_tree s1) = PyDict.get key (media_info_tree s2).

(** The line sets the section [key]. *)
Definition sets_key (key line : string) : bool :=
  match section_key line with
  | Some k => String.eqb k key
  | None => false
  end.

(** No line of [lines] sets the section [key]. *)
Definition never_set (key : string) (lines : list string) : bool :=
  forallb (fun l => negb (sets_key key l)) lines.

Definition is_group (c : option child) : bool :=
  match c with
  | Some (Group _) => true
  | _ => false
  end.

(** ** The reports of the repository's tests *)

Module Samples.

Definition dq : string := String "034"%char EmptyString.

(** The text of a triple-quoted literal: every line ends in a newline. *)
Definition unlines (ls : list string) : string :=
  fold_right (fun l acc => l ++ String newline acc) EmptyString ls.

Definition BLANK_BD : string := unlines [
  "INQUIRY:                [HL-DT-ST][BD-RE  WH16NS40 ][1.00]";
  "GET [CURRENT] CONFIGURATION:";
  " Mounted Media:         41h, BD-R SRM";
  " Media ID:              VERBAT/IMe";
  " Current Write Speed:   12.0x4495=53952KB/s";
  " Write Speed #0:        12.0x4495=53952KB/s";
  " Write Speed #1:        10.0x4495=44960KB/s";
  " Write Speed #2:        8.0x4495=35968KB/s";
  " Write Speed #3:        6.0x4495=26976KB/s";
  " Write Speed #4:        4.0x4495=17984KB/s";
  " Speed Descriptor#0:    08/12219391 R@6.0x4495=26976KB/s W@12.0x4495=53952KB/s";
  " Speed Descriptor#1:    08/12219391 R@6.0x4495=26976KB/s W@10.0x4495=44960KB/s";
  " Speed Descriptor#2:    08/12219391 R@6.0x4495=26976KB/s W@8.0x4495=35968KB/s";
  " Speed Descriptor#3:    08/12219391 R@6.0x4495=26976KB/s W@6.0x4495=26976KB/s";
  " Speed Descriptor#4:    00/12219391 R@6.0x4495=26976KB/s W@4.0x4495=17984KB/s";
  ":-[ READ BD SPARE INFORMATION failed with SK=5h/INVALID FIELD IN CDB]: Input/output error";
  "READ DISC INFORMATION:";
  " Disc status:           blank";
  " Number of Sessions:    1";
  " State of Last Session: empty";
  " " ++ dq ++ "Next" ++ dq ++ " Track:          1";
  " Number of Tracks:      1";
  "READ FORMAT CAPACITIES:";
  " unformatted:           12219392*2048=25025314816";
  " 00h(3000):             11826176*2048=24220008448";
  " 32h(0):                11826176*2048=24220008448";
  " 32h(0):                5796864*2048=11871977472";
  " 32h(0):                12088320*2048=24756879360";
  "READ TRACK INFORMATION[#1]:";
  " Track State:           invisible incremental";
  " Track Start Address:   0*2KB";
  " Next Writable Address: 0*2KB";
  " Free Blocks:           12219392*2KB";
  " Track Size:            12219392*2KB";
  "READ CAPACITY:          0*2048=0"
].

Definition WRITTEN_BD : string := unlines [
  "INQUIRY:                [HL-DT-ST][BD-RE  WH16NS40 ][1.00]";
  "GET [CURRENT] CONFIGURATION:";
  " Mounted Media:         41h, BD-R SRM+POW";
  " Media ID:              VERBAT/IMe";
  " Current Write Speed:   12.0x4495=53952KB/s";
  " Write Speed #0:        12.0x4495=53952KB/s";
  " Write Speed #1:        10.0x4495=44960KB/s";
  " Write Speed #2:        8.0x4495=35968KB/s";
  " Write Speed #3:        6.0x4495=26976KB/s";
  " Write Speed #4:        4.0x4495=17984KB/s";
  " Speed Descriptor#0:    08/12088319 R@6.0x4495=26976KB/s W@12.0x4495=53952KB/s";
  " Speed Descriptor#1:    08/12088319 R@6.0x4495=26976KB/s W@10.0x4495=44960KB/s";
  " Speed Descriptor#2:    08/12088319 R@6.0x4495=26976KB/s W@8.0x4495=35968KB/s";
  " Speed Descriptor#3:    08/12088319 R@6.0x4495=26976KB/s W@6.0x4495=26976KB/s";
  " Speed Descriptor#4:    00/12088319 R@6.0x4495=26976KB/s W@4.0x4495=17984KB/s";
  "BD SPARE AREA INFORMATION:";
  " Spare Area:            36672/65536=56.0% free";
  "POW RESOURCES INFORMATION:";
  " Remaining Replacements:16843552";
  " Remaining Map Entries: 0";
  " Remaining Updates:     0";
  "READ DISC INFORMATION:";
  " Disc status:           appendable";
  " Number of Sessions:    1";
  " State of Last Session: incomplete";
  " " ++ dq ++ "Next" ++ dq ++ " Track:          1";
  " Number of Tracks:      3";
  "READ TRACK INFORMATION[#1]:";
  " Track State:           partial incremental";
  " Track Start Address:   0*2KB";
  " Free Blocks:           0*2KB";
  " Track Size:            761152*2KB";
  "READ TRACK INFORMATION[#2]:";
  " Track State:           partial incremental";
  " Track Start Address:   761152*2KB";
  " Free Blocks:           0*2KB";
  " Track Size:            1906976*2KB";
  "READ TRACK INFORMATION[#3]:";
  " Track State:           incomplete incremental";
  " Track Start Address:   2668128*2KB";
  " Next Writable Address: 7925792*2KB";
  " Free Blocks:           4162528*2KB";
  " Track Size:            9420192*2KB";
  "FABRICATED TOC:";
  " Track#1  :             14@0";
  " Track#AA :             14@12088320";
  " Multi-session Info:    #1@0";
  "READ CAPACITY:          12088320*2048=24756879360"
].

End Samples.

(** ** Small trees and reports for the instances below *)

Module Cases.

(** A written disc with two track sections; no format capacities. *)
Definition track1 : list (string * child) :=
  [("READ DISC INFORMATION", Group [("Disc status", "appendable")]);
   ("READ TRACK INFORMATION[#1]", Group [("Free Blocks", "0*2KB")])].

Definition track3 : PyDict.dict string :=
  [("Free Blocks", "4162528*2KB"); ("Track Size", "9420192*2KB")].

Definition tail : list (string * child) :=
  [("READ CAPACITY", Scalar "12088320*2048=24756879360")].

Definition written : MediaInfoTree :=
  (track1 ++ ("READ TRACK INFORMATION[#3]", Group track3) :: tail)%list.

(** A formatted blank disc whose track section cannot be read as a size. *)
Definition formatted : MediaInfoTree :=
  [("READ DISC INFORMATION", Group [("Disc status", "blank")]);
   ("READ FORMAT CAPACITIES",
    Group [("unformatted", "12219392*2048=25025314816");
           ("00h(3000)", "11826176*2048=24220008448")]);
   ("READ TRACK INFORMATION[#1]", Group [("Free Blocks", "unknown")]);
   ("READ CAPACITY", Scalar "0*2048=0")].

(** Neither candidate for the total size. *)
Definition no_total : MediaInfoTree :=
  [("READ DISC INFORMATION", Group [("Disc status", "blank")]);
   ("READ FORMAT CAPACITIES", Group [("unformatted", "12219392*2048")])].

(** A total size and no disc status. *)
Definition no_status : MediaInfoTree :=
  [("READ DISC INFORMATION", Group [("Number of Sessions", "1")]);
   ("READ CAPACITY", Scalar "12088320*2048=24756879360")].

(** A written disc without any track section. *)
Definition no_tracks : MediaInfoTree :=
  [("INQUIRY", Scalar "[HL-DT-ST][BD-RE  WH16NS40 ][1.00]");
   ("READ DISC INFORMATION", Group [("Disc status", "complete")]);
   ("READ CAPACITY", Scalar "12088320*2048=24756879360")].

(** An appendable disc that reports more free blocks than the formatted
    capacity, with the figures of the blank report of the tests. *)
Definition overfull : string := Samples.unlines [
  "READ DISC INFORMATION:";
  " Disc status:           appendable";
  "READ FORMAT CAPACITIES:";
  " 00h(3000):             11826176*2048=24220008448";
  "READ TRACK INFORMATION[#1]:";
  " Free Blocks:           12219392*2KB"
].

Definition overfull_record : MediaInfo :=
  mkMediaInfo 24220008448 25025314816 (-805306368) false.

End Cases.

(** ** Small reports for the instances about the builder *)

Module Reports.

Definition nl : string := String newline EmptyString.

(** A sub-field whose value is a time of day. *)
Definition timestamp : string := Samples.unlines [
  "READ DISC INFORMATION:";
  " Disc status:           appendable";
  " Last Written:          12:30:05";
  "READ CAPACITY:          12088320*2048=24756879360"
].

(** A line of the drive's chatter without any colon. *)
Definition chatter : string := Samples.unlines [
  "READ DISC INFORMATION:";
  " Disc status:           blank";
  "drive is not ready";
  "READ CAPACITY:          12088320*2048=24756879360"
].

(** A sub-field before any section. *)
Definition orphan : string := Samples.unlines [
  "   ";
  ":-[ READ BD SPARE INFORMATION failed ]: Input/output error";
  " Disc status:           blank";
  "READ DISC INFORMATION:"
].

(** A section name that comes back. *)
Definition repeated : string := Samples.unlines [
  "READ TRACK INFORMATION:";
  " Track State:           partial incremental";
  " Free Blocks:           0*2KB";
  "READ CAPACITY:          0*2048=0";
  "READ TRACK INFORMATION:";
  " Free Blocks:           4162528*2KB";
  "READ DISC INFORMATION:";
  " Disc status:           appendable";
  "READ CAPACITY:          12088320*2048=24756879360"
].

(** Its tree: each name stands where it first came, with its last value. *)
Definition repeated_tree : MediaInfoTree :=
  [("READ TRACK INFORMATION", Group [("Free Blocks", "4162528*2KB")]);
   ("READ CAPACITY", Scalar "12088320*2048=24756879360");
   ("READ DISC INFORMATION", Group [("Disc status", "appendable")])].

End Reports.
(** ** More of the built-ins, for the command-line layer *)

Module PyText.

Definition shift_down (c : ascii) : ascii :=
  ascii_of_N (PyStr.code c + 32).

Definition shift_up (c : ascii) : ascii :=
  ascii_of_N (PyStr.code c - 32).

(** The characters below 256 that have a lower-case partner: [A] to [Z]
    and the accented capitals 192 to 222, the sign 215 apart. *)
Definition is_upper (c : ascii) : bool :=
  PyStr.between 65 90 c
  || (PyStr.between 192 222 c && negb (PyStr.code c =? 215)%N).

Fixpoint lower (s : string) : string :=
  match s with
  | EmptyString => EmptyString
  | String c r => String (if is_upper c then shift_down c else c) (lower r)
  end.

(** [s.upper()] leaves the code points below 256 for three characters, so
    its result is a list of code points: the sharp s becomes [SS], the y
    with diaeresis 376 and the micro sign 924. *)
Definition upper_char (c : ascii) : list N :=
  if (PyStr.code c =? 223)%N then [83; 83]%N
  else if (PyStr.code c =? 255)%N then [376]%N
  else if (PyStr.code c =? 181)%N then [924]%N
  else if PyStr.between 97 122 c
          || (PyStr.between 224 254 c && negb (PyStr.code c =? 247)%N)
       then [PyStr.code c - 32]%N
       else [PyStr.code c].

Fixpoint upper (s : string) : list N :=
  match s with
  | EmptyString => []
  | String c r => (upper_char c ++ upper r)%list
  end.

Fixpoint codes (s : string) : list N :=
  match s with
  | EmptyString => []
  | String c r => PyStr.code c :: codes r
  end.

(** [str(n)] of an [int] *)
Definition str_of_int (n : Z) : string :=
  DecimalString.NilZero.string_of_int (Z.to_int n).

(** [needle in s] *)
Fixpoint contains (needle s : string) : bool :=
  String.prefix needle s
  || match s with
     | EmptyString => false
     | String _ r => contains needle r
     end.

End PyText.

(** ** The command-line layer

    The functions of [disc_append.py] around the parser.  What they do to
    the outside is kept as a log of events: a process run with its
    argument vector, a call of [print] with its arguments, a call of
    [input] with its prompt.  The outside answers through [stdin], the
    lines [input] will return, and through [oracle], which gives the
    outcome of a process from its argument vector and all that has
    happened before.  A [Path] is the text [str] gives of it.
    [parse_arguments] is left to [argparse]: [main] starts from the
    [RunConfig] it returns. *)

Module Cli.

Inductive Command : Type := INIT | APPEND.

Definition name (c : Command) : string :=
  match c with
  | INIT => "INIT"
  | APPEND => "APPEND"
  end.

Definition members : list Command := [INIT; APPEND].

Fixpoint codes_eqb (a b : list N) : bool :=
  match a, b with
  | [], [] => true
  | x :: a', y :: b' => (x =? y)%N && codes_eqb a' b'
  | _, _ => false
  end.

(** [Command.list_command_options] *)
Definition list_command_options : list string :=
  map (fun x => PyText.lower (name x)) members.

(** [Command.from_command_option]: [cls[value.upper()]] *)
Definition from_command_option (value : string) : result Command :=
  match find (fun c => codes_eqb (PyText.codes (name c)) (PyText.upper value))
          members with
  | Some c => Ok c
  | None => Raise KeyError
  end.

Definition Path : Type := string.

Record RunConfig : Type := mkRunConfig {
  command : Command;
  device : Path;
  source_paths : list Path;
  speed : Z;
  dry_run : bool;
  volume_id : option string
}.

(** [dataclasses.replace(run_config, dry_run=True)] *)
Definition with_dry_run (rc : RunConfig) : RunConfig :=
  mkRunConfig (command rc) (device rc) (source_paths rc) (speed rc) true
    (volume_id rc).

(** [run_config.volume_id = volume_id] *)
Definition with_volume_id (rc : RunConfig) (v : string) : RunConfig :=
  mkRunConfig (command rc) (device rc) (source_paths rc) (speed rc)
    (dry_run rc) (Some v).

Definition MKISOFS_BASE_ARGS : list string :=
  ["-iso-level"; "3"; "-l"; "-T"; "-R"; "-J"; "--joliet-long"].

Definition SESSION_FLAGS (c : Command) : string :=
  match c with
  | INIT => "-Z"
  | APPEND => "-M"
  end.

(** The argument vector [disc_write_impl] builds. *)
Definition growisofs_args (rc : RunConfig) (volume : string) : list string :=
  (["growisofs"]
   ++ (if dry_run rc then ["--dry-run"] else [])
   ++ [("--speed=" ++ PyText.str_of_int (speed rc))%string]
   ++ [SESSION_FLAGS (command rc); device rc]
   ++ MKISOFS_BASE_ARGS
   ++ ["-V"; volume]
   ++ source_paths rc)%list.

(** The argument vector [get_bytes_to_be_written] builds. *)
Definition mkisofs_args (rc : RunConfig) : list string :=
  (["mkisofs"] ++ MKISOFS_BASE_ARGS ++ ["--print-size"; "--quiet"]
   ++ source_paths rc)%list.

(** The argument vector of [get_volume_id]; it does not hold [device]. *)
Definition blkid_args : list string :=
  ["blkid"; "--output"; "value"; "--match-tag"; "LABEL"; "/dev/sr0"].

Definition mediainfo_args (device : Path) : list string :=
  ["dvd+rw-mediainfo"; device].

(** *** Effects *)

Inductive error : Type :=
| Exn (e : exn)
| RuntimeError
| EOFError
| CalledProcessError
| OSError.

Inductive outcome (A : Type) : Type :=
| Done (a : A)
| Fail (e : error).

Arguments Done {A} a.
Arguments Fail {A} e.

(** An argument of [print]: a [str], or the list of arguments of a
    process. *)
Inductive obj : Type :=
| OStr (s : string)
| OList (l : list string).

Inductive event : Type :=
| Run (args : list string) (capture : bool)
| Printed (objs : list obj)
| Prompted (prompt : string).

(** What [subprocess.run(..., check=True, text=True)] comes to: the process
    completes with exit status 0 and its two outputs, or the call
    raises. *)
Inductive answer : Type :=
| Completed (out err : string)
| Failed (e : error).

(** [stdout] and [stderr] are [None] unless captured. *)
Record CompletedProcess : Type := mkCompleted {
  stdout : option string;
  stderr : option string
}.

Record world : Type := mkWorld {
  stdin : list string;
  log : list event
}.

Definition io (A : Type) : Type := world -> outcome A * world.

Definition ret {A : Type} (a : A) : io A := fun w => (Done a, w).

Definition raise {A : Type} (e : error) : io A := fun w => (Fail e, w).

Definition iobind {A B : Type} (m : io A) (k : A -> io B) : io B :=
  fun w =>
    match m w with
    | (Done a, w') => k a w'
    | (Fail e, w') => (Fail e, w')
    end.

Notation "x <~ m ;; k" := (iobind m (fun x => k))
  (at level 61, m at next level, right associativity).

Definition lift {A : Type} (r : result A) : io A :=
  match r with
  | Ok a => ret a
  | Raise e => raise (Exn e)
  end.

Definition emit (e : event) : io unit :=
  fun w => (Done tt, mkWorld (stdin w) (log w ++ [e])).

Definition print (objs : list obj) : io unit := emit (Printed objs).

(** [input(prompt)]: the next line, or [EOFError] at the end of the
    input. *)
Definition input (prompt : string) : io string :=
  fun w =>
    match stdin w with
    | [] => (Fail EOFError, mkWorld [] (log w ++ [Prompted prompt]))
    | l :: rest => (Done l, mkWorld rest (log w ++ [Prompted prompt]))
    end.

Definition question : string := "Would you like to proceed? [y/N]:".

(** The [while True] of [confirmation_prompt]: one turn a line of the
    input. *)
Fixpoint prompt_loop (lines : list string) (past : list event)
  : outcome bool * world :=
  match lines with
  | [] => (Fail EOFError, mkWorld [] (past ++ [Prompted question]))
  | l :: rest =>
      let key := PyText.lower l in
      if String.eqb key "y" then
        (Done true, mkWorld rest (past ++ [Prompted question]))
      else if String.eqb key "n" || String.eqb key EmptyString then
        (Done false, mkWorld rest (past ++ [Prompted question]))
      else prompt_loop rest (past ++ [Prompted question])
  end.

Definition ask : io bool := fun w => prompt_loop (stdin w) (log w).

Definition warning : list obj :=
  [OStr (String "027" "[31;1;4m");
   OStr ("WARNING: THIS DISC ALREADY HAS AN EXISTING FILESYSTEM."
         ++ String newline EmptyString);
   OStr ("If you continue, your existing data will be lost."
         ++ String newline EmptyString);
   OStr "(Use the `append` command if you wish to append data instead.)";
   OStr (String "027" "[0m")].

Section Outside.

Variable oracle : list event -> list string -> answer.

(** [humanfriendly.format_size(n, binary=True)] *)
Variable format_size : Z -> string.

Definition subprocess_run (args : list string) (capture : bool)
  : io CompletedProcess :=
  fun w =>
    let w' := mkWorld (stdin w) (log w ++ [Run args capture]) in
    match oracle (log w) args with
    | Completed out err =>
        (Done (if capture then mkCompleted (Some out) (Some err)
               else mkCompleted None None), w')
    | Failed e => (Fail e, w')
    end.

Definition disc_write_impl (rc : RunConfig) (capture_output : bool)
  (print_executing : bool) : io CompletedProcess :=
  match volume_id rc with
  | None => raise (Exn ValueError)
  | Some volume =>
      let args := growisofs_args rc volume in
      _ <~ (if print_executing then print [OStr "Executing:"; OList args]
            else ret tt) ;;
      subprocess_run args capture_output
  end.

Definition disc_write (rc : RunConfig) : io unit :=
  _ <~ disc_write_impl rc false true ;; ret tt.

Definition print_disc_write_error_messages (rc : RunConfig) : io unit :=
  cp <~ disc_write_impl (with_dry_run rc) true false ;;
  match stderr cp with
  | None => raise (Exn TypeError)
  | Some err =>
      if PyText.contains "already carries isofs" err then
        _ <~ print [OStr EmptyString] ;; print warning
      else ret tt
  end.

Definition get_bytes_to_be_written (rc : RunConfig) : io Z :=
  cp <~ subprocess_run (mkisofs_args rc) true ;;
  match stdout cp with
  | None => raise (Exn TypeError)
  | Some out =>
      match PyStr.int out with
      | Some sectors => ret (sectors * 2048)
      | None => raise (Exn ValueError)
      end
  end.

Definition get_volume_id (device : Path) : io string :=
  cp <~ subprocess_run blkid_args true ;;
  match stdout cp with
  | None => raise (Exn AttributeError)
  | Some out => ret (PyStr.strip out)
  end.

Definition read_media_info (device : Path) : io MediaInfo :=
  cp <~ subprocess_run (mediainfo_args device) true ;;
  match stdout cp with
  | None => raise (Exn AttributeError)
  | Some out => lift (parse_media_info out)
  end.

Definition print_bytes_free (media_info : MediaInfo) : io unit :=
  print [OStr (format_size (free_size media_info));
         OStr "bytes free on disc."].

Definition print_size_approximations (rc : RunConfig) : io unit :=
  media_info <~ read_media_info (device rc) ;;
  _ <~ print_bytes_free media_info ;;
  approx_write_size <~ get_bytes_to_be_written rc ;;
  _ <~ print [OStr ("Approx. " ++ format_size approx_write_size ++ " "
                    ++ "to be written.")] ;;
  print [OStr "Approx.";
         OStr (format_size (free_size media_info - approx_write_size));
         OStr "will be free after the operation."].

Definition confirmation_prompt (rc : RunConfig) : io bool :=
  _ <~ disc_write (with_dry_run rc) ;;
  _ <~ print [OStr EmptyString] ;;
  _ <~ print_size_approximations rc ;;
  _ <~ print_disc_write_error_messages rc ;;
  _ <~ print [OStr EmptyString] ;;
  ask.

(** The [match] of [main] on the command. *)
Definition settle_volume_id (rc : RunConfig) : io RunConfig :=
  match command rc, volume_id rc with
  | INIT, None => raise RuntimeError
  | APPEND, None =>
      volume <~ get_volume_id (device rc) ;;
      _ <~ print [OStr "Using volume id:"; OStr volume] ;;
      ret (with_volume_id rc volume)
  | _, Some _ => ret rc
  end.

(** [main], from the [RunConfig] of [parse_arguments] on. *)
Definition main (run_config : RunConfig) : io unit :=
  rc <~ settle_volume_id run_config ;;
  confirmation <~ confirmation_prompt rc ;;
  if confirmation && negb (dry_run rc) then
    _ <~ disc_write rc ;;
    media_info <~ read_media_info (device rc) ;;
    print_bytes_free media_info
  else ret tt.

End Outside.

(** *** Vocabulary of the statements about a run *)

(** A run of [growisofs] that is not a dry run. *)
Definition writes_disc (e : event) : bool :=
  match e with
  | Run (prog :: second :: _) _ =>
      String.eqb prog "growisofs" && negb (String.eqb second "--dry-run")
  | Run [prog] _ => String.eqb prog "growisofs"
  | _ => false
  end.

(** An answer the prompt goes by. *)
Definition decides (line : string) : bool :=
  let key := PyText.lower line in
  String.eqb key "y" || String.eqb key "n" || String.eqb key EmptyString.

Definition says_yes (line : string) : bool :=
  String.eqb (PyText.lower line) "y".

(** What the first line that decides says, if any line does. *)
Definition first_decision (lines : list string) : option bool :=
  option_map says_yes (find decides lines).

(** The number of runs that write the disc among some events. *)
Definition writes (evs : list event) : nat :=
  List.length (filter writes_disc evs).

Definition harmless (e : event) : bool := negb (writes_disc e).

Definition any_event (e : event) : bool := true.

(** [m] adds to the log, and only events that pass [P]. *)
Definition adds {A : Type} (P : event -> bool) (m : io A) : Prop :=
  forall w, exists evs,
    log (snd (m w)) = (log w ++ evs)%list /\ forallb P evs = true.

(** [m] reads nothing of the input. *)
Definition keeps_input {A : Type} (m : io A) : Prop :=
  forall w, stdin (snd (m w)) = stdin w.

(** When [m] returns, it returns what the first deciding line says. *)
Definition goes_by_input (m : io bool) : Prop :=
  forall w b w', m w = (Done b, w') -> first_decision (stdin w) = Some b.

(** *** An outside for the instances

    The drive holds the written disc of the tests, [mkisofs] announces 1000
    sectors, [blkid] the label [BACKUP]; [growisofs] completes silently. *)

Definition sample_oracle (past : list event) (args : list string) : answer :=
  let prog := hd EmptyString args in
  if String.eqb prog "dvd+rw-mediainfo" then
    Completed Samples.WRITTEN_BD EmptyString
  else if String.eqb prog "mkisofs" then
    Completed ("1000" ++ String newline EmptyString) EmptyString
  else if String.eqb prog "blkid" then
    Completed ("BACKUP" ++ String newline EmptyString) EmptyString
  else Completed EmptyString EmptyString.

Definition sample_format_size (n : Z) : string :=
  PyText.str_of_int n ++ " bytes".

Definition sample_config : RunConfig :=
  mkRunConfig APPEND "/dev/sr1" ["photos"; "notes.txt"] 4 false
    (Some "BACKUP").

Definition sample_world (lines : list string) : world := mkWorld lines [].

End Cli.

(** ** Vocabulary of the further statements about reports *)

(** A string of characters that [strip] removes. *)
Fixpoint all_isspace (s : string) : bool :=
  match s with
  | EmptyString => true
  | String c r => PyStr.isspace c && all_isspace r
  end.

(** [line'] is [line] with white space after it. *)
Definition padded (line line' : string) : Prop :=
  exists ws, all_isspace ws = true /\ line' = line ++ ws.

(** The lines the builder does not skip. *)
Definition kept_lines (info : string) : list string :=
  filter (fun l => negb (skipped l)) (lines_of info).

(** ** Instances for the further statements *)

Module More.

Definition cr : string := String "013" EmptyString.

(** The report [Cases.overfull] with lines that end in CR LF. *)
Definition overfull_crlf : string := Samples.unlines [
  "READ DISC INFORMATION:" ++ cr;
  " Disc status:           appendable" ++ cr;
  "READ FORMAT CAPACITIES:" ++ cr;
  " 00h(3000):             11826176*2048=24220008448" ++ cr;
  "READ TRACK INFORMATION[#1]:" ++ cr;
  " Free Blocks:           12219392*2KB" ++ cr
].

(** The same report between the messages of the drive. *)
Definition overfull_noisy : string := Samples.unlines [
  ":-[ READ BD SPARE INFORMATION failed ]: Input/output error";
  "READ DISC INFORMATION:";
  " Disc status:           appendable";
  EmptyString;
  "READ FORMAT CAPACITIES:";
  " 00h(3000):             11826176*2048=24220008448";
  ":-( no media mounted";
  "READ TRACK INFORMATION[#1]:";
  "   ";
  " Free Blocks:           12219392*2KB"
].

Definition append_unnamed : Cli.RunConfig :=
  Cli.mkRunConfig Cli.APPEND "/dev/sr1" ["photos"] 4 false None.

Definition init_unnamed : Cli.RunConfig :=
  Cli.mkRunConfig Cli.INIT "/dev/sr1" ["photos"] 4 false None.

End More.

(** ** Vocabulary and instances of the revised statements *)

(** The text before the first colon, trimmed. *)
Definition key_part (line : string) : string :=
  PyStr.strip (nth 0 (PyStr.split colon line) EmptyString).

(** The lines at the head of [lines] that do not close an open Group: the
    skipped and the indented ones. *)
Fixpoint open_block (lines : list string) : list string :=
  match lines with
  | [] => []
  | l :: rest =>
      if skipped l || indented l then l :: open_block rest else []
  end.

(** The sub-fields that the lines of a block set, one after the other, in
    a Group that holds [d]. *)
Fixpoint sub_fields (block : list string) (d : PyDict.dict string)
  : PyDict.dict string :=
  match block with
  | [] => d
  | l :: rest =>
      if skipped l then sub_fields rest d
      else sub_fields rest (PyDict.set (key_part l) (value_part l) d)
  end.

Module Revised.

(** A written disc whose first track reports no number. *)
Definition unreadable_track : string := Samples.unlines [
  "READ DISC INFORMATION:";
  " Disc status:           appendable";
  "READ TRACK INFORMATION[#1]:";
  " Free Blocks:           unknown";
  "READ TRACK INFORMATION[#2]:";
  " Free Blocks:           4162528*2KB";
  "READ CAPACITY:          12088320*2048=24756879360"
].

Definition unreadable_head : list (string * child) :=
  [("READ DISC INFORMATION", Group [("Disc status", "appendable")]);
   ("READ TRACK INFORMATION[#1]", Group [("Free Blocks", "unknown")])].

Definition unreadable_tree : MediaInfoTree :=
  (unreadable_head
   ++ ("READ TRACK INFORMATION[#2]", Group [("Free Blocks", "4162528*2KB")])
      :: Cases.tail)%list.

(** The format capacities on one line, and the capacity after them. *)
Definition scalar_capacities : string := Samples.unlines [
  "READ DISC INFORMATION:";
  " Disc status:           blank";
  "READ FORMAT CAPACITIES: none";
  "READ CAPACITY:          12088320*2048=24756879360"
].

Definition scalar_capacities_tree : MediaInfoTree :=
  [("READ DISC INFORMATION", Group [("Disc status", "blank")]);
   ("READ FORMAT CAPACITIES", Scalar "none");
   ("READ CAPACITY", Scalar "12088320*2048=24756879360")].

(** A track section that comes back, with two sub-fields the second time,
    one of them set twice. *)
Definition reopened : string := Samples.unlines [
  "READ TRACK INFORMATION:";
  " Track State:           partial incremental";
  " Free Blocks:           0*2KB";
  "READ TRACK INFORMATION:";
  " Free Blocks:           1*2KB";
  EmptyString;
  " Track Size:            9420192*2KB";
  " Free Blocks:           4162528*2KB";
  "READ CAPACITY:          12088320*2048=24756879360";
  "FABRICATED TOC:";
  " Track#1  :             14@0"
].

Definition reopened_tree : MediaInfoTree :=
  [("READ TRACK INFORMATION",
    Group [("Free Blocks", "4162528*2KB"); ("Track Size", "9420192*2KB")]);
   ("READ CAPACITY", Scalar "12088320*2048=24756879360");
   ("FABRICATED TOC", Group [("Track#1", "14@0")])].

End Revised.

(** ** Facts about the [str] methods *)

Section StrFacts.

Lemma split_not_nil (c : ascii) (s : string) : PyStr.split c s <> [].
Proof.
  induction s as [|a r IH]; simpl; [discriminate|].
  destruct (Ascii.eqb a c); [discriminate|].
  destruct (PyStr.split c r); [contradiction | discriminate].
Qed.

Lemma split_length (c : ascii) (s : string) :
  List.length (PyStr.split c s) = S (count c s).
Proof.
  induction s as [|a r IH]; simpl; [reflexivity|].
  destruct (Ascii.eqb a c); simpl; [now rewrite IH|].
  destruct (PyStr.split c r) as [|h t] eqn:E; [now apply split_not_nil in E|].
  simpl in *. exact IH.
Qed.

Lemma split_no_sep (c : ascii) (s : string) :
  count c s = O -> PyStr.split c s = [s].
Proof.
  induction s as [|a r IH]; simpl; [reflexivity|].
  destruct (Ascii.eqb a c); [discriminate|].
  intros H. now rewrite (IH H).
Qed.

Lemma split_at_first (c : ascii) (a b : string) :
  count c a = O ->
  PyStr.split c (a ++ String c b) = a :: PyStr.split c b.
Proof.
  induction a as [|x r IH]; simpl.
  - now rewrite Ascii.eqb_refl.
  - destruct (Ascii.eqb x c); [discriminate|].
    intros H. now rewrite (IH H).
Qed.

Lemma count_app (c : ascii) (a b : string) :
  count c (a ++ b) = (count c a + count c b)%nat.
Proof.
  induction a as [|x a IH]; simpl; auto.
  destruct (Ascii.eqb x c); simpl; now rewrite IH.
Qed.

Lemma split_at_only (c : ascii) (a b : string) :
  count c a = O -> count c b = O ->
  PyStr.split c (a ++ String c b) = [a; b].
Proof.
  intros A B. now rewrite (split_at_first _ _ _ A), (split_no_sep _ _ B).
Qed.

Lemma split_two (c : ascii) (s : string) :
  count c s = 1%nat -> exists a b, PyStr.split c s = [a; b].
Proof.
  intros H. pose proof (split_length c s) as L. rewrite H in L.
  destruct (PyStr.split c s) as [|a [|b [|x t]]]; try discriminate.
  now exists a, b.
Qed.

Lemma split_not_two (c : ascii) (s : string) :
  count c s <> 1%nat ->
  match PyStr.split c s with [_; _] => False | _ => True end.
Proof.
  intros H. pose proof (split_length c s) as L.
  destruct (PyStr.split c s) as [|a [|b [|x t]]]; simpl in *; auto.
  apply H. congruence.
Qed.

(** A digit is none of the characters [int] and [split] give a meaning. *)
Lemma digit_char (c : ascii) :
  Digits.is_digit c = true ->
  PyStr.digit c = Some (Z.of_N (PyStr.code c) - 48)
  /\ PyStr.int_space c = false
  /\ Ascii.eqb c star = false
  /\ Ascii.eqb c "+" = false
  /\ Ascii.eqb c "-" = false.
Proof.
  destruct c as [[] [] [] [] [] [] [] []]; intros H;
    try discriminate H; repeat split; reflexivity.
Qed.

Lemma int_scan_digits (s : string) : forall acc,
  Digits.all_digits s = true ->
  PyStr.int_scan acc false s
  = Some (acc * 10 ^ Z.of_nat (String.length s) + Digits.decimal s).
Proof.
  induction s as [|c r IH]; intros acc H;
    cbn [PyStr.int_scan Digits.decimal Digits.all_digits String.length] in *.
  - f_equal. change (Z.of_nat 0) with 0. lia.
  - apply andb_prop in H as [Hc Hr].
    destruct (digit_char c Hc) as (-> & _).
    rewrite (IH _ Hr). f_equal.
    rewrite Nat2Z.inj_succ, Z.pow_succ_r by lia. ring.
Qed.

(** [int] reads a run of digits as the number it denotes. *)
Lemma int_digits (s : string) :
  Digits.is_digits s = true -> PyStr.int s = Some (Digits.decimal s).
Proof.
  unfold Digits.is_digits. destruct s as [|c r]; [discriminate|].
  simpl. intros H. apply andb_prop in H as [Hc Hr].
  destruct (digit_char c Hc) as (Hd & Hs & _ & Hp & Hm).
  assert (E : PyStr.int (String c r) = PyStr.int_unsigned (String c r)).
  { unfold PyStr.int. simpl. rewrite Hs.
    destruct c as [[] [] [] [] [] [] [] []]; try reflexivity;
      discriminate. }
  rewrite E. simpl. rewrite Hd, (int_scan_digits _ _ Hr). reflexivity.
Qed.

Lemma digits_no_star (s : string) :
  Digits.all_digits s = true -> count star s = O.
Proof.
  induction s as [|c r IH]; simpl; [reflexivity|].
  intros H. apply andb_prop in H as [Hc Hr].
  destruct (digit_char c Hc) as (_ & _ & -> & _). auto.
Qed.

End StrFacts.

(** ** Facts about the resolver *)

Section ResolverFacts.

Lemma size_of_digits (digits rest : string) :
  Digits.is_digits digits = true ->
  size_of (digits ++ "*" ++ rest) = Ok (Digits.decimal digits * 2048).
Proof.
  intros H. unfold size_of, before_star.
  assert (N : count star digits = O).
  { apply digits_no_star. unfold Digits.is_digits in H.
    now apply andb_prop in H as [_ ?]. }
  change ("*" ++ rest) with (String star rest).
  rewrite (split_at_first _ _ _ N). simpl.
  now rewrite (int_digits _ H).
Qed.

Lemma sub_field_ok (section field : string) (t : MediaInfoTree) (v : string) :
  field_of section field t = Some v <-> sub_field section field t = Ok v.
Proof.
  unfold field_of, sub_field.
  destruct (PyDict.get section t) as [[s|g]|];
    try (split; discriminate).
  destruct (PyDict.get field g); split; congruence.
Qed.

Lemma sub_field_raises (section field : string) (t : MediaInfoTree) :
  field_of section field t = None ->
  sub_field section field t
  = Raise (if is_scalar section t then TypeError else KeyError).
Proof.
  unfold field_of, sub_field, is_scalar.
  destruct (PyDict.get section t) as [[s|g]|]; auto.
  now intros ->.
Qed.

(** What a returned record says about the steps that made it. *)
Lemma resolve_ok (t : MediaInfoTree) (r : MediaInfo) :
  resolve t = Ok r ->
  resolve_total_size t = Ok (total_size r)
  /\ resolve_is_blank t = Ok (is_blank r)
  /\ resolve_free_size t (total_size r) (is_blank r) = Ok (free_size r)
  /\ used_size r = total_size r - free_size r.
Proof.
  unfold resolve.
  destruct (resolve_total_size t) as [total|]; [simpl|discriminate].
  destruct (resolve_is_blank t) as [blank|]; [simpl|discriminate].
  destruct (resolve_free_size t total blank) as [free|] eqn:F;
    [simpl|discriminate].
  intros [= <-]. simpl. now rewrite F.
Qed.

Lemma is_blank_of_status (t : MediaInfoTree) (status : string) :
  sub_field "READ DISC INFORMATION" "Disc status" t = Ok status ->
  resolve_is_blank t = Ok (String.eqb status "blank").
Proof. unfold resolve_is_blank. now intros ->. Qed.

Lemma scan_app (pre post : list (string * child)) : forall free,
  scan_free_blocks (pre ++ post) free
  = (f <- scan_free_blocks pre free ;; scan_free_blocks post f).
Proof.
  induction pre as [|[k [s|g]] pre IH]; intros free; simpl; auto.
  destruct (PyDict.get "Free Blocks" g); auto.
  destruct (size_of s); simpl; auto.
Qed.

Lemma scan_no_free_blocks (items : list (string * child)) : forall free,
  no_free_blocks items = true -> scan_free_blocks items free = Ok free.
Proof.
  induction items as [|[k [s|g]] items IH]; intros free; simpl; auto.
  destruct (PyDict.get "Free Blocks" g); simpl; [discriminate | auto].
Qed.

Lemma scan_readable (items : list (string * child)) : forall free,
  all_readable items = true -> returns (scan_free_blocks items free).
Proof.
  induction items as [|[k [s|g]] items IH]; intros free; simpl; auto.
  - intros _. now exists free.
  - destruct (PyDict.get "Free Blocks" g); auto.
    destruct (size_of s); simpl; [auto | discriminate].
Qed.

(** The scan ends with the value of the last Group that has the field. *)
Lemma scan_last (pre post : list (string * child)) (k : string)
  (g : PyDict.dict string) (v : string) (free f : option Z) :
  PyDict.get "Free Blocks" g = Some v ->
  no_free_blocks post = true ->
  scan_free_blocks (pre ++ (k, Group g) :: post) free = Ok f ->
  exists n, size_of v = Ok n /\ f = Some n.
Proof.
  intros G P. rewrite scan_app.
  destruct (scan_free_blocks pre free) as [f0|]; [simpl|discriminate].
  rewrite G. destruct (size_of v) as [n|]; [simpl|discriminate].
  rewrite (scan_no_free_blocks _ _ P). intros [= <-]. now exists n.
Qed.

Lemma size_of_raises (v : string) (e : exn) :
  size_of v = Raise e -> e = ValueError.
Proof.
  unfold size_of. destruct (PyStr.int (before_star v)); [discriminate|].
  now intros [= <-].
Qed.

(** The scan stops at the first value that [int] refuses. *)
Lemma scan_not_readable (items : list (string * child)) : forall free,
  all_readable items = false ->
  scan_free_blocks items free = Raise ValueError.
Proof.
  induction items as [|[k [s|g]] items IH]; intros free; simpl;
    [discriminate | apply IH |].
  destruct (PyDict.get "Free Blocks" g) as [v|]; [|apply IH].
  destruct (size_of v) as [n|e] eqn:E; simpl; [apply IH|].
  intros _. now rewrite (size_of_raises _ _ E).
Qed.

(** A ["Free Blocks"] value that [int] refuses stops the scan where it
    stands, also when a later Group has a readable one. *)
Remark scan_unreadable (pre post : list (string * child)) (k : string)
  (g : PyDict.dict string) (free : option Z) :
  all_readable pre = true ->
  has_free_blocks (Group g) = true ->
  free_blocks_readable (Group g) = false ->
  scan_free_blocks (pre ++ (k, Group g) :: post) free = Raise ValueError.
Proof.
  intros A H U. rewrite scan_app.
  destruct (scan_readable _ free A) as (f0 & ->). simpl in *.
  destruct (PyDict.get "Free Blocks" g) as [v|]; [|discriminate].
  unfold size_of in *.
  destruct (PyStr.int (before_star v)); [discriminate | reflexivity].
Qed.

(** A section ["READ FORMAT CAPACITIES"] that is a Scalar is indexed all
    the same: the [TypeError] is not handled, and ["READ CAPACITY"] is not
    tried. *)
Remark scalar_format_capacities (t : MediaInfoTree) :
  is_scalar "READ FORMAT CAPACITIES" t = true ->
  resolve t = Raise TypeError.
Proof.
  unfold is_scalar, resolve, resolve_total_size, format_capacity, sub_field.
  destruct (PyDict.get "READ FORMAT CAPACITIES" t) as [[s|g]|];
    try discriminate.
  reflexivity.
Qed.

End ResolverFacts.

(** ** Facts about [dict] *)

Section DictFacts.
Context {V : Type}.

Lemma get_set_same (k : string) (v : V) (d : PyDict.dict V) :
  PyDict.get k (PyDict.set k v d) = Some v.
Proof.
  induction d as [|[k' v'] d IH]; simpl.
  - now rewrite String.eqb_refl.
  - destruct (String.eqb k' k) eqn:E; simpl; rewrite E; auto.
Qed.

Lemma get_set_other (k k' : string) (v : V) (d : PyDict.dict V) :
  k' <> k -> PyDict.get k (PyDict.set k' v d) = PyDict.get k d.
Proof.
  intros N. induction d as [|[k0 v0] d IH]; simpl.
  - apply String.eqb_neq in N. now rewrite N.
  - destruct (String.eqb k0 k') eqn:E; simpl.
    + apply String.eqb_eq in E. subst k0.
      apply String.eqb_neq in N. now rewrite N.
    + now rewrite IH.
Qed.
End DictFacts.

(** ** Facts about the builder *)

Section BuilderFacts.

Lemma build_lines_app (a b : list string) : forall st,
  build_lines st (a ++ b) = (m <- build_lines st a ;; build_lines m b).
Proof.
  induction a as [|l a IH]; intros st; simpl; auto.
  destruct (build_line st l); simpl; auto.
Qed.

Lemma build_lines_skipped (ls : list string) (st : builder) :
  forallb skipped ls = true -> build_lines st ls = Ok st.
Proof.
  induction ls as [|l ls IH]; simpl; auto.
  intros H. apply andb_prop in H as [Hl Hr].
  unfold build_line. rewrite Hl. simpl. auto.
Qed.

Lemma split_pair_ok (line a b : string) :
  split_pair line = Ok (a, b) <-> PyStr.split colon line = [a; b].
Proof.
  unfold split_pair.
  destruct (PyStr.split colon line) as [|x [|y [|z t]]];
    split; intros H; try discriminate H; congruence.
Qed.

Lemma split_pair_one_colon (line : string) :
  count colon line = 1%nat -> returns (split_pair line).
Proof.
  intros H. destruct (split_two _ _ H) as (a & b & E).
  exists (a, b). now apply split_pair_ok.
Qed.

Lemma split_pair_raises (line : string) :
  count colon line <> 1%nat -> split_pair line = Raise ValueError.
Proof.
  intros H. apply split_not_two in H. unfold split_pair.
  destruct (PyStr.split colon line) as [|x [|y [|z t]]];
    try reflexivity; contradiction.
Qed.

(** A line that is not skipped and has not exactly one colon stops the
    builder, whatever its state. *)
Lemma build_line_raises (st : builder) (line : string) :
  skipped line = false -> count colon line <> 1%nat ->
  build_line st line = Raise ValueError.
Proof.
  intros S C. unfold build_line. rewrite S.
  rewrite (split_pair_raises _ C). now destruct (indented line).
Qed.

(** An indented line while no Group is open stops the builder. *)
Lemma build_line_no_group (st : builder) (line : string) :
  skipped line = false -> indented line = true ->
  current_child st = None ->
  build_line st line
  = Raise (if one_colon line then TypeError else ValueError).
Proof.
  intros S I C. unfold build_line, one_colon. rewrite S, I.
  destruct (Nat.eqb (count colon line) 1) eqn:E.
  - apply Nat.eqb_eq in E.
    destruct (split_pair_one_colon _ E) as (kv & ->). simpl. now rewrite C.
  - apply Nat.eqb_neq in E. now rewrite (split_pair_raises _ E).
Qed.

Lemma section_key_some (line key : string) :
  section_key line = Some key ->
  skipped line = false /\ indented line = false
  /\ exists a b, PyStr.split colon line = [a; b] /\ PyStr.strip a = key.
Proof.
  unfold section_key.
  destruct (skipped line); [discriminate|].
  destruct (indented line); [discriminate|]. simpl.
  destruct (PyStr.split colon line) as [|a [|b [|z t]]]; try discriminate.
  intros [= <-]. repeat split. now exists a, b.
Qed.

Lemma get_child_set (key ck x y : string) (t : MediaInfoTree) :
  PyDict.get key (child_set ck x y t)
  = if String.eqb ck key then
      match PyDict.get key t with
      | Some (Group g) => Some (Group (PyDict.set x y g))
      | o => o
      end
    else PyDict.get key t.
Proof.
  unfold child_set. destruct (String.eqb ck key) eqn:E.
  - apply String.eqb_eq in E. subst ck.
    destruct (PyDict.get key t) as [[s|g]|] eqn:G; auto.
    apply get_set_same.
  - apply String.eqb_neq in E.
    destruct (PyDict.get ck t) as [[s|g]|]; auto.
    now apply get_set_other.
Qed.

(** The line that sets [key] leaves the same value at [key] and the same
    open Group, whatever came before it. *)
Lemma build_line_fresh (key : string) (sa sb sa' : builder) (line : string) :
  section_key line = Some key ->
  build_line sa line = Ok sa' ->
  exists sb', build_line sb line = Ok sb' /\ agree key sa' sb'.
Proof.
  intros K. destruct (section_key_some _ _ K) as (S & I & a & b & E & A).
  apply split_pair_ok in E. unfold build_line. rewrite S, I, E. simpl.
  rewrite A. destruct (PyStr.is_empty (PyStr.strip b)).
  - intros [= <-]. eexists. split; [reflexivity|].
    split; simpl; auto. now rewrite !get_set_same.
  - intros [= <-]. eexists. split; [reflexivity|].
    split; simpl; auto. now rewrite !get_set_same.
Qed.

(** A line that does not set [key] keeps two agreeing builders agreeing. *)
Lemma build_line_agree (key : string) (s1 s2 s1' : builder) (line : string) :
  agree key s1 s2 ->
  section_key line <> Some key ->
  build_line s1 line = Ok s1' ->
  exists s2', build_line s2 line = Ok s2' /\ agree key s1' s2'.
Proof.
  intros [C G] K. unfold section_key in K. unfold build_line.
  destruct (skipped line); simpl in *.
  { intros [= <-]. exists s2. now split. }
  destruct (indented line); simpl in *.
  - destruct (split_pair line) as [[a b]|]; [simpl|discriminate].
    rewrite <- C. destruct (current_child s1) as [ck|]; [|discriminate].
    intros [= <-]. eexists. split; [reflexivity|].
    split; simpl; auto. rewrite !get_child_set, G. reflexivity.
  - destruct (split_pair line) as [[a b]|] eqn:E; [simpl|discriminate].
    apply split_pair_ok in E. rewrite E in K.
    assert (N : PyStr.strip a <> key) by congruence.
    destruct (PyStr.is_empty (PyStr.strip b)); intros [= <-];
      (eexists; split; [reflexivity|]; split; simpl; auto;
       now rewrite !get_set_other).
Qed.

Lemma build_lines_agree (key : string) (ls : list string) :
  forall s1 s2 s1',
  agree key s1 s2 ->
  Forall (fun l => section_key l <> Some key) ls ->
  build_lines s1 ls = Ok s1' ->
  exists s2', build_lines s2 ls = Ok s2' /\ agree key s1' s2'.
Proof.
  induction ls as [|l ls IH]; intros s1 s2 s1' A F; simpl.
  - intros [= <-]. now exists s2.
  - inversion F as [|? ? Fl Fr]; subst.
    destruct (build_line s1 l) as [m1|] eqn:E1; [simpl|discriminate].
    destruct (build_line_agree _ _ s2 _ _ A Fl E1) as (m2 & -> & A').
    simpl. now apply IH.
Qed.

(** While the open Group is not the one at [key], a line that does not
    set [key] leaves the value at [key] alone. *)
Lemma build_line_keeps (key : string) (s s' : builder) (line : string) :
  current_child s <> Some key ->
  section_key line <> Some key ->
  build_line s line = Ok s' ->
  current_child s' <> Some key
  /\ PyDict.get key (media_info_tree s') = PyDict.get key (media_info_tree s).
Proof.
  intros C K. unfold section_key in K. unfold build_line.
  destruct (skipped line); simpl in *.
  { intros [= <-]. now split. }
  destruct (indented line); simpl in *.
  - destruct (split_pair line) as [[a b]|]; [simpl|discriminate].
    destruct (current_child s) as [ck|] eqn:Ck; [|discriminate].
    intros [= <-]. simpl. split; auto.
    rewrite get_child_set.
    destruct (String.eqb ck key) eqn:E; auto.
    apply String.eqb_eq in E. congruence.
  - destruct (split_pair line) as [[a b]|] eqn:E; [simpl|discriminate].
    apply split_pair_ok in E. rewrite E in K.
    assert (N : PyStr.strip a <> key) by congruence.
    destruct (PyStr.is_empty (PyStr.strip b)); intros [= <-]; simpl;
      (split; [congruence | now apply get_set_other]).
Qed.

Lemma build_lines_keeps (key : string) (ls : list string) :
  forall s s',
  current_child s <> Some key ->
  Forall (fun l => section_key l <> Some key) ls ->
  build_lines s ls = Ok s' ->
  PyDict.get key (media_info_tree s') = PyDict.get key (media_info_tree s).
Proof.
  induction ls as [|l ls IH]; intros s s' C F; simpl.
  - now intros [= <-].
  - inversion F as [|? ? Fl Fr]; subst.
    destruct (build_line s l) as [m|] eqn:E; [simpl|discriminate].
    destruct (build_line_keeps _ _ _ _ C Fl E) as [C' G].
    intros H. rewrite (IH _ _ C' Fr H). exact G.
Qed.

(** The open Group is in the tree, as a Group, under the key that stands
    for the reference: the write through [current_child] always finds it. *)
Lemma build_line_open (st st' : builder) (line : string) :
  (forall ck, current_child st = Some ck ->
              is_group (PyDict.get ck (media_info_tree st)) = true) ->
  build_line st line = Ok st' ->
  forall ck, current_child st' = Some ck ->
             is_group (PyDict.get ck (media_info_tree st')) = true.
Proof.
  intros Inv. unfold build_line.
  destruct (skipped line); simpl.
  { now intros [= <-]. }
  destruct (indented line); simpl.
  - destruct (split_pair line) as [[a b]|]; [simpl|discriminate].
    destruct (current_child st) as [ck0|] eqn:C; [|discriminate].
    intros [= <-] ck [= <-]. simpl.
    specialize (Inv ck0 eq_refl). rewrite get_child_set, String.eqb_refl.
    destruct (PyDict.get ck0 (media_info_tree st)) as [[s|g]|];
      try discriminate Inv.
    reflexivity.
  - destruct (split_pair line) as [[a b]|]; [simpl|discriminate].
    destruct (PyStr.is_empty (PyStr.strip b)); intros [= <-] ck; simpl;
      [|discriminate].
    intros [= <-]. now rewrite get_set_same.
Qed.

Lemma build_lines_open (lines : list string) : forall st st',
  (forall ck, current_child st = Some ck ->
              is_group (PyDict.get ck (media_info_tree st)) = true) ->
  build_lines st lines = Ok st' ->
  forall ck, current_child st' = Some ck ->
             is_group (PyDict.get ck (media_info_tree st')) = true.
Proof.
  induction lines as [|l lines IH]; intros st st' Inv; simpl.
  - now intros [= <-].
  - destruct (build_line st l) as [m|] eqn:E; [simpl|discriminate].
    apply IH. exact (build_line_open _ _ _ Inv E).
Qed.

Lemma current_child_is_group (lines : list string) (st : builder)
  (ck : string) :
  build_lines empty_builder lines = Ok st ->
  current_child st = Some ck ->
  is_group (PyDict.get ck (media_info_tree st)) = true.
Proof.
  intros B. apply (build_lines_open lines empty_builder st); auto.
  intros k H. discriminate H.
Qed.

End BuilderFacts.

(** ** The tests of the repository *)

Section Tests.

Example test_written :
  parse_media_info Samples.WRITTEN_BD
  = Ok (mkMediaInfo 24756879360 8524857344 16232022016 false).
Proof. vm_compute. reflexivity. Qed.

Example test_blank :
  parse_media_info Samples.BLANK_BD
  = Ok (mkMediaInfo 24220008448 24220008448 0 true).
Proof. vm_compute. reflexivity. Qed.

End Tests.

(** ** The capacity resolver *)

(** C1, as the program has it.  In a tree of a disc that is not blank, let
    the last Group, in insertion order, that has the sub-field
    ["Free Blocks"] hold a value [<digits>*<rest>].  The free size of any
    record the resolver returns is that number times 2048, whatever
    numbers the Groups before it carry.  The loop reads the value of every
    such Group as it goes: once the total size is resolved, the record is
    returned when each value before the last can be read, and when one
    cannot, the resolver raises [ValueError] and returns no record. *)
Theorem free_size_is_last_free_blocks
  (t pre post : MediaInfoTree) (k : string) (g : PyDict.dict string)
  (digits rest : string) :
  t = (pre ++ (k, Group g) :: post)%list ->
  PyDict.get "Free Blocks" g = Some (digits ++ "*" ++ rest) ->
  Digits.is_digits digits = true ->
  no_free_blocks post = true ->
  (forall r, resolve t = Ok r -> is_blank r = false ->
             free_size r = Digits.decimal digits * 2048)
  /\ (forall total status,
        resolve_total_size t = Ok total ->
        field_of "READ DISC INFORMATION" "Disc status" t = Some status ->
        String.eqb status "blank" = false ->
        (all_readable pre = true ->
         resolve t
         = Ok (mkMediaInfo total (Digits.decimal digits * 2048)
                 (total - Digits.decimal digits * 2048) false))
        /\ (all_readable pre = false -> resolve t = Raise ValueError)).
Proof.
  intros -> G D P. split.
  - intros r R B.
    destruct (resolve_ok _ _ R) as (_ & _ & F & _).
    rewrite B in F. unfold resolve_free_size in F.
    destruct (scan_free_blocks _ None) as [f|] eqn:S; [simpl in F|discriminate].
    destruct (scan_last _ _ _ _ _ _ _ G P S) as (n & Hn & ->).
    rewrite (size_of_digits _ _ D) in Hn. congruence.
  - intros total status T St B. apply sub_field_ok in St.
    unfold resolve. rewrite T. simpl.
    rewrite (is_blank_of_status _ _ St), B. simpl.
    unfold resolve_free_size. rewrite scan_app. split; intros A.
    + destruct (scan_readable _ None A) as (f0 & ->). simpl.
      rewrite G, (size_of_digits _ _ D). unfold bind.
      now rewrite (scan_no_free_blocks _ _ P).
    + now rewrite (scan_not_readable _ None A).
Qed.

Lemma free_size_is_last_free_blocks_witness :
  resolve Cases.written
  = Ok (mkMediaInfo 24756879360 8524857344 16232022016 false)
  /\ resolve Revised.unreadable_tree = Raise ValueError.
Proof.
  split.
  - apply (proj2 (free_size_is_last_free_blocks Cases.written Cases.track1
                    Cases.tail "READ TRACK INFORMATION[#3]" Cases.track3
                    "4162528" "2KB" eq_refl eq_refl eq_refl eq_refl)
             24756879360 "appendable");
      reflexivity.
  - apply (proj2 (free_size_is_last_free_blocks Revised.unreadable_tree
                    Revised.unreadable_head Cases.tail
                    "READ TRACK INFORMATION[#2]"
                    [("Free Blocks", "4162528*2KB")]
                    "4162528" "2KB" eq_refl eq_refl eq_refl eq_refl)
             24756879360 "appendable");
      reflexivity.
Defined.

(** C1, as stated, fails: the last Group with ["Free Blocks"] of this
    appendable disc holds [4162528*2KB], yet no record with that free size
    is returned; the value [unknown] of the Group before it makes the
    resolver raise [ValueError]. *)
Lemma unreadable_earlier_free_blocks_aborts :
  build_media_info_tree Revised.unreadable_track
  = Ok Revised.unreadable_tree
  /\ resolve Revised.unreadable_tree = Raise ValueError
  /\ parse_media_info Revised.unreadable_track = Raise ValueError.
Proof. repeat split; vm_compute; reflexivity. Qed.

(** C2, as the program has it.  The total size is resolved in two steps,
    the first match winning.  When the Group ["READ FORMAT CAPACITIES"] has
    the sub-field ["00h(3000)"], the total size is the number before the
    star in its value, times 2048, whatever else the tree holds.  When the
    tree has no such sub-field and holds the Scalar ["READ CAPACITY"], the
    total size of any record returned is the number before the star in
    that Scalar, times 2048; the step falls back to it when
    ["READ FORMAT CAPACITIES"] is absent or a Group.  When that section is
    a Scalar, indexing it raises [TypeError], which the handler of
    [KeyError] lets pass: ["READ CAPACITY"] is not tried and no record is
    returned. *)
Theorem total_size_priority (t : MediaInfoTree) (digits rest : string) :
  Digits.is_digits digits = true ->
  (field_of "READ FORMAT CAPACITIES" "00h(3000)" t
   = Some (digits ++ "*" ++ rest) ->
   resolve_total_size t = Ok (Digits.decimal digits * 2048)
   /\ forall r, resolve t = Ok r ->
                total_size r = Digits.decimal digits * 2048)
  /\ (field_of "READ FORMAT CAPACITIES" "00h(3000)" t = None ->
      PyDict.get "READ CAPACITY" t = Some (Scalar (digits ++ "*" ++ rest)) ->
      (forall r, resolve t = Ok r ->
                 total_size r = Digits.decimal digits * 2048)
      /\ (is_scalar "READ FORMAT CAPACITIES" t = false ->
          resolve_total_size t = Ok (Digits.decimal digits * 2048))
      /\ (is_scalar "READ FORMAT CAPACITIES" t = true ->
          resolve_total_size t = Raise TypeError
          /\ resolve t = Raise TypeError)).
Proof.
  intros D.
  assert (first : field_of "READ FORMAT CAPACITIES" "00h(3000)" t
                  = Some (digits ++ "*" ++ rest) ->
                  resolve_total_size t = Ok (Digits.decimal digits * 2048)).
  { intros F. apply sub_field_ok in F.
    unfold resolve_total_size, format_capacity. rewrite F. unfold bind.
    now rewrite (size_of_digits _ _ D). }
  assert (second : field_of "READ FORMAT CAPACITIES" "00h(3000)" t = None ->
                   PyDict.get "READ CAPACITY" t
                   = Some (Scalar (digits ++ "*" ++ rest)) ->
                   is_scalar "READ FORMAT CAPACITIES" t = false ->
                   resolve_total_size t = Ok (Digits.decimal digits * 2048)).
  { intros F C S. apply sub_field_raises in F. rewrite S in F.
    unfold resolve_total_size, format_capacity. rewrite F. simpl.
    unfold read_capacity. rewrite C. apply (size_of_digits _ _ D). }
  split.
  - intros F. split; [auto|].
    intros r R. destruct (resolve_ok _ _ R) as (T & _).
    rewrite (first F) in T. congruence.
  - intros F C. split; [|split; [auto|]].
    + intros r R. destruct (resolve_ok _ _ R) as (T & _).
      destruct (is_scalar "READ FORMAT CAPACITIES" t) eqn:S.
      * apply sub_field_raises in F. rewrite S in F.
        unfold resolve_total_size, format_capacity in T. rewrite F in T.
        discriminate T.
      * rewrite (second F C eq_refl) in T. congruence.
    + intros S. pose proof (scalar_format_capacities t S) as R.
      split; [|exact R].
      apply sub_field_raises in F. rewrite S in F.
      unfold resolve_total_size, format_capacity. now rewrite F.
Qed.

Lemma total_size_priority_witness :
  resolve_total_size Cases.formatted = Ok 24220008448
  /\ resolve_total_size Cases.written = Ok 24756879360
  /\ resolve_total_size Revised.scalar_capacities_tree = Raise TypeError.
Proof.
  split; [|split].
  - apply (proj1 (total_size_priority Cases.formatted "11826176"
                    "2048=24220008448" eq_refl)).
    reflexivity.
  - apply (proj2 (total_size_priority Cases.written "12088320"
                    "2048=24756879360" eq_refl)); reflexivity.
  - apply (proj2 (total_size_priority Revised.scalar_capacities_tree
                    "12088320" "2048=24756879360" eq_refl));
      reflexivity.
Defined.

(** C2, as stated, fails: this tree has no sub-field ["00h(3000)"] and holds
    the Scalar ["READ CAPACITY"], yet its total size is not resolved from
    it; the Scalar ["READ FORMAT CAPACITIES"] makes the resolver raise
    [TypeError]. *)
Lemma scalar_format_capacities_aborts :
  build_media_info_tree Revised.scalar_capacities
  = Ok Revised.scalar_capacities_tree
  /\ field_of "READ FORMAT CAPACITIES" "00h(3000)"
       Revised.scalar_capacities_tree = None
  /\ resolve Revised.scalar_capacities_tree = Raise TypeError
  /\ parse_media_info Revised.scalar_capacities = Raise TypeError.
Proof. repeat split; vm_compute; reflexivity. Qed.

(** C5.  When the sub-field ["Disc status"] of the Group
    ["READ DISC INFORMATION"] is ["blank"], the record has [is_blank] set,
    its free size is its total size and its used size is 0.  No
    ["Free Blocks"] field is read: the record is the same whatever the
    Groups of the tree carry there, readable or not. *)
Theorem blank_disc_is_all_free (t : MediaInfoTree) (total : Z) :
  field_of "READ DISC INFORMATION" "Disc status" t = Some "blank" ->
  resolve_total_size t = Ok total ->
  resolve t = Ok (mkMediaInfo total total 0 true).
Proof.
  intros St T. apply sub_field_ok in St.
  unfold resolve. rewrite T. simpl.
  rewrite (is_blank_of_status _ _ St). simpl.
  now rewrite Z.sub_diag.
Qed.

Lemma blank_disc_is_all_free_witness :
  resolve Cases.formatted = Ok (mkMediaInfo 24220008448 24220008448 0 true)
  /\ all_readable Cases.formatted = false.
Proof.
  split.
  - apply (blank_disc_is_all_free Cases.formatted 24220008448);
      reflexivity.
  - reflexivity.
Defined.

(** C6, as the program has it.  Every record the resolver returns has
    [used_size = total_size - free_size], so that the used and the free
    size add up to the total size.  Of a blank disc the free size is the
    total size and the used size is 0.  Nothing bounds the free size of a
    disc that is not blank: the used size is non-negative exactly when the
    free size is at most the total size. *)
Theorem used_size_is_total_minus_free (t : MediaInfoTree) (r : MediaInfo) :
  resolve t = Ok r ->
  used_size r = total_size r - free_size r
  /\ used_size r + free_size r = total_size r
  /\ (is_blank r = true -> free_size r = total_size r /\ used_size r = 0)
  /\ (0 <= used_size r <-> free_size r <= total_size r).
Proof.
  intros R. destruct (resolve_ok _ _ R) as (_ & _ & F & U).
  repeat split; try lia.
  - destruct (is_blank r); [|discriminate].
    simpl in F. congruence.
  - destruct (is_blank r); [|discriminate].
    simpl in F. assert (free_size r = total_size r) by congruence. lia.
Qed.

Lemma used_size_is_total_minus_free_witness :
  used_size Cases.overfull_record
  = total_size Cases.overfull_record - free_size Cases.overfull_record.
Proof.
  refine (proj1 (used_size_is_total_minus_free
                   [("READ DISC INFORMATION",
                     Group [("Disc status", "appendable")]);
                    ("READ FORMAT CAPACITIES",
                     Group [("00h(3000)", "11826176*2048=24220008448")]);
                    ("READ TRACK INFORMATION[#1]",
                     Group [("Free Blocks", "12219392*2KB")])]
                   Cases.overfull_record _)).
  reflexivity.
Defined.

(** C6, as stated, fails: the report of an appendable disc whose track
    reports more free blocks than the formatted capacity yields a record
    whose free size exceeds its total size and whose used size is
    negative. *)
Lemma free_size_may_exceed_total :
  parse_media_info Cases.overfull = Ok Cases.overfull_record
  /\ ~ (free_size Cases.overfull_record <= total_size Cases.overfull_record)
  /\ ~ (0 <= used_size Cases.overfull_record).
Proof.
  split; [vm_compute; reflexivity|].
  split; vm_compute; intros H; apply H; reflexivity.
Qed.

(** C7.  The resolver returns no record when the tree has neither the
    sub-field ["00h(3000)"] of a Group ["READ FORMAT CAPACITIES"] nor an
    entry ["READ CAPACITY"], and none when it has no sub-field
    ["Disc status"] of a Group ["READ DISC INFORMATION"].  The exception is
    the [KeyError] of the missing key; it is the [TypeError] of the failed
    lookup instead when the section is there as a Scalar, and the absence
    of the disc status is reached unless the total size has already
    failed in another way. *)
Theorem missing_field_raises (t : MediaInfoTree) :
  (field_of "READ FORMAT CAPACITIES" "00h(3000)" t = None ->
   PyDict.get "READ CAPACITY" t = None ->
   raises (resolve t)
   /\ (is_scalar "READ FORMAT CAPACITIES" t = false ->
       resolve t = Raise KeyError))
  /\ (field_of "READ DISC INFORMATION" "Disc status" t = None ->
      raises (resolve t)
      /\ (is_scalar "READ DISC INFORMATION" t = false ->
          (forall e, resolve_total_size t = Raise e -> e = KeyError) ->
          resolve t = Raise KeyError)).
Proof.
  split.
  - intros F C. apply sub_field_raises in F.
    unfold resolve, resolve_total_size, format_capacity, read_capacity.
    rewrite F, C.
    destruct (is_scalar "READ FORMAT CAPACITIES" t); simpl.
    + split; [now exists TypeError | discriminate].
    + split; [now exists KeyError | reflexivity].
  - intros F. apply sub_field_raises in F.
    unfold resolve, resolve_is_blank. rewrite F.
    destruct (resolve_total_size t) as [total|e]; simpl.
    + split; [eexists; reflexivity|]. now intros ->.
    + split; [now exists e|]. intros _ H. now rewrite (H e eq_refl).
Qed.

Lemma missing_field_raises_witness :
  resolve Cases.no_total = Raise KeyError
  /\ resolve Cases.no_status = Raise KeyError.
Proof.
  split.
  - apply (proj1 (missing_field_raises Cases.no_total)); reflexivity.
  - apply (proj2 (missing_field_raises Cases.no_status));
      [reflexivity | reflexivity |].
    intros e H. discriminate H.
Defined.

(** C8.  Of a disc whose status is there and is not ["blank"], and none of
    whose Groups carries ["Free Blocks"], the resolver returns no record:
    once the total size is resolved, the free size is never bound and
    reading it raises [UnboundLocalError]. *)
Theorem missing_free_blocks_raises (t : MediaInfoTree) (status : string) :
  field_of "READ DISC INFORMATION" "Disc status" t = Some status ->
  String.eqb status "blank" = false ->
  no_free_blocks t = true ->
  raises (resolve t)
  /\ (returns (resolve_total_size t) ->
      resolve t = Raise UnboundLocalError).
Proof.
  intros St B N. apply sub_field_ok in St.
  unfold resolve. rewrite (is_blank_of_status _ _ St), B.
  unfold resolve_free_size. rewrite (scan_no_free_blocks _ _ N).
  destruct (resolve_total_size t) as [total|e]; simpl.
  - split; [eexists; reflexivity | reflexivity].
  - split; [now exists e|]. intros (a & H). discriminate H.
Qed.

Lemma missing_free_blocks_raises_witness :
  resolve Cases.no_tracks = Raise UnboundLocalError.
Proof.
  apply (missing_free_blocks_raises Cases.no_tracks "complete");
    try reflexivity.
  exists 24756879360. reflexivity.
Defined.

(** ** The report tree builder *)

Section BuilderTotality.

Lemma raise_not_returns {A : Type} (e : exn) : ~ returns (@Raise A e).
Proof. intros (a & H). discriminate H. Qed.

(** The builder returns exactly on the well-formed lists of lines. *)
Lemma build_lines_returns (lines : list string) : forall st,
  returns (build_lines st lines) <-> well_formed (is_open st) lines = true.
Proof.
  induction lines as [|l lines IH]; intros st; simpl.
  { split; [reflexivity | now exists st]. }
  unfold build_line. destruct (skipped l); simpl; [apply IH|].
  unfold one_colon. destruct (Nat.eqb (count colon l) 1) eqn:C; simpl.
  - apply Nat.eqb_eq in C. destruct (split_two _ _ C) as (a & b & E).
    assert (P : split_pair l = Ok (a, b)) by now apply split_pair_ok.
    rewrite P. simpl. destruct (indented l).
    + unfold is_open at 1 2. destruct (current_child st) as [ck|] eqn:Ck; simpl.
      * rewrite IH. unfold is_open. simpl. reflexivity.
      * split; [intros H; now apply raise_not_returns in H | discriminate].
    + unfold is_header, value_part. rewrite E. simpl.
      destruct (PyStr.is_empty (PyStr.strip b)); simpl; now rewrite IH.
  - apply Nat.eqb_neq in C. rewrite (split_pair_raises _ C).
    split; [|discriminate].
    destruct (indented l); simpl; intros H; now apply raise_not_returns in H.
Qed.

Lemma build_stops_at (info : string) (pre post : list string)
  (line : string) (st : builder) (e : exn) :
  lines_of info = (pre ++ line :: post)%list ->
  build_lines empty_builder pre = Ok st ->
  build_line st line = Raise e ->
  build_media_info_tree info = Raise e.
Proof.
  intros L P B. unfold build_media_info_tree. fold (lines_of info).
  rewrite L, build_lines_app, P. simpl. now rewrite B.
Qed.

End BuilderTotality.

(** C3, as the program has it.  Let [a] be the text of a line before its
    first colon and [b] the text after it, the line not being skipped.
    When [b] has no colon, the line is split there: a line that is not
    indented stores under the trimmed [a] the Scalar that is the whole
    trimmed [b], or an empty Group when that is empty, and an indented line
    stores the whole trimmed [b] under the trimmed [a] in the open Group.
    When [b] has a further colon, the line is split at every colon, the
    unpacking into two raises [ValueError], and no tree is returned for
    the report. *)
Theorem line_splits_at_its_only_colon (st : builder) (a b : string) :
  count colon a = O ->
  skipped (a ++ ":" ++ b) = false ->
  (count colon b = O ->
   (indented (a ++ ":" ++ b) = false ->
    exists st',
      build_line st (a ++ ":" ++ b) = Ok st'
      /\ PyDict.get (PyStr.strip a) (media_info_tree st')
         = Some (if PyStr.is_empty (PyStr.strip b) then Group []
                 else Scalar (PyStr.strip b)))
   /\ (indented (a ++ ":" ++ b) = true ->
       forall ck,
         current_child st = Some ck ->
         is_group (PyDict.get ck (media_info_tree st)) = true ->
         exists st',
           build_line st (a ++ ":" ++ b) = Ok st'
           /\ field_of ck (PyStr.strip a) (media_info_tree st')
              = Some (PyStr.strip b)))
  /\ (count colon b <> O ->
      build_line st (a ++ ":" ++ b) = Raise ValueError
      /\ forall info pre post,
           lines_of info = (pre ++ (a ++ ":" ++ b)%string :: post)%list ->
           build_lines empty_builder pre = Ok st ->
           build_media_info_tree info = Raise ValueError).
Proof.
  intros A S. change (":" ++ b) with (String colon b) in *. split.
  - intros B.
    assert (P : split_pair (a ++ String colon b) = Ok (a, b)).
    { apply split_pair_ok. now apply split_at_only. }
    split.
    + intros I. unfold build_line. rewrite S, I, P. simpl.
      destruct (PyStr.is_empty (PyStr.strip b)); eexists;
        (split; [reflexivity|]); simpl; apply get_set_same.
    + intros I ck C G. unfold build_line. rewrite S, I, P. simpl.
      rewrite C. eexists. split; [reflexivity|]. simpl.
      unfold field_of. rewrite get_child_set, String.eqb_refl.
      destruct (PyDict.get ck (media_info_tree st)) as [[s|g]|];
        try discriminate G.
      apply get_set_same.
  - intros B.
    assert (R : build_line st (a ++ String colon b) = Raise ValueError).
    { apply build_line_raises; [assumption|].
      rewrite count_app. simpl. lia. }
    split; [exact R|].
    intros info pre post L P. exact (build_stops_at _ _ _ _ _ _ L P R).
Qed.

Lemma line_splits_at_its_only_colon_witness :
  (exists st',
     build_line empty_builder "READ CAPACITY:          0*2048=0" = Ok st'
     /\ PyDict.get "READ CAPACITY" (media_info_tree st')
        = Some (Scalar "0*2048=0"))
  /\ build_line (mkBuilder
                   [("READ DISC INFORMATION",
                     Group [("Disc status", "appendable")])]
                   (Some "READ DISC INFORMATION"))
       " Last Written:          12:30:05"
     = Raise ValueError.
Proof.
  split.
  - apply (proj1 (line_splits_at_its_only_colon empty_builder
                    "READ CAPACITY" "          0*2048=0"
                    eq_refl eq_refl));
      reflexivity.
  - apply (proj2 (line_splits_at_its_only_colon
                    (mkBuilder
                       [("READ DISC INFORMATION",
                         Group [("Disc status", "appendable")])]
                       (Some "READ DISC INFORMATION"))
                    " Last Written" "          12:30:05"
                    eq_refl eq_refl)).
    vm_compute. discriminate.
Defined.

(** C3, as stated, fails: the sub-field line [ Last Written: 12:30:05] is
    not stored with the value [12:30:05]; the builder raises [ValueError]
    on it and the report yields neither a tree nor a record. *)
Lemma timestamp_value_aborts :
  build_media_info_tree Reports.timestamp = Raise ValueError
  /\ parse_media_info Reports.timestamp = Raise ValueError.
Proof. split; vm_compute; reflexivity. Qed.

(** C4, as the program has it.  The builder returns a tree exactly for the
    reports in which each line that is not skipped has one colon and each
    indented line comes while a Group is open.  It does not pass over a
    line of another shape: once the lines before it are taken in, a line
    without a colon raises [ValueError] and no tree is returned. *)
Theorem build_returns_on_well_formed (info : string) :
  (returns (build_media_info_tree info)
   <-> well_formed false (lines_of info) = true)
  /\ (forall pre line post st,
        lines_of info = (pre ++ line :: post)%list ->
        build_lines empty_builder pre = Ok st ->
        skipped line = false ->
        count colon line = O ->
        build_media_info_tree info = Raise ValueError).
Proof.
  split.
  - rewrite <- (build_lines_returns (lines_of info) empty_builder).
    unfold build_media_info_tree. fold (lines_of info).
    destruct (build_lines empty_builder (lines_of info)) as [st|e]; simpl.
    + split; intros _; eexists; reflexivity.
    + split; intros H; now apply raise_not_returns in H.
  - intros pre line post st L P S C.
    apply (build_stops_at _ _ _ _ _ _ L P).
    apply build_line_raises; [assumption | lia].
Qed.

Lemma build_returns_on_well_formed_witness :
  returns (build_media_info_tree Samples.WRITTEN_BD)
  /\ build_media_info_tree Reports.chatter = Raise ValueError.
Proof.
  split.
  - apply (proj1 (build_returns_on_well_formed Samples.WRITTEN_BD)).
    vm_compute. reflexivity.
  - apply (proj2 (build_returns_on_well_formed Reports.chatter)
             ["READ DISC INFORMATION:"; " Disc status:           blank"]
             "drive is not ready"
             ["READ CAPACITY:          12088320*2048=24756879360";
              EmptyString]
             (mkBuilder
                [("READ DISC INFORMATION", Group [("Disc status", "blank")])]
                (Some "READ DISC INFORMATION")));
      reflexivity.
Defined.

(** C4, as stated, fails: a report with a line that has no colon is not
    built into a tree, the builder raises [ValueError]. *)
Lemma colonless_line_aborts :
  build_media_info_tree Reports.chatter = Raise ValueError
  /\ ~ returns (build_media_info_tree Reports.chatter).
Proof.
  assert (E : build_media_info_tree Reports.chatter = Raise ValueError)
    by (vm_compute; reflexivity).
  split; [exact E|]. rewrite E. intros (t & H). discriminate H.
Qed.

(** C9.  When the first line of a report that is not skipped is indented,
    no Group being open yet, the builder raises an exception and returns
    no tree: [TypeError] from the write through the unset [current_child]
    when the line has one colon, [ValueError] from the unpacking
    otherwise. *)
Theorem orphan_sub_field_raises (info : string) (pre post : list string)
  (line : string) :
  lines_of info = (pre ++ line :: post)%list ->
  forallb skipped pre = true ->
  skipped line = false ->
  indented line = true ->
  raises (build_media_info_tree info)
  /\ build_media_info_tree info
     = Raise (if one_colon line then TypeError else ValueError).
Proof.
  intros L P S I.
  assert (B : build_media_info_tree info
              = Raise (if one_colon line then TypeError else ValueError)).
  { apply (build_stops_at _ _ _ _ _ _ L (build_lines_skipped _ _ P)).
    now apply build_line_no_group. }
  split; [|exact B]. rewrite B. now eexists.
Qed.

Lemma orphan_sub_field_raises_witness :
  build_media_info_tree Reports.orphan = Raise TypeError.
Proof.
  apply (orphan_sub_field_raises Reports.orphan
           ["   ";
            ":-[ READ BD SPARE INFORMATION failed ]: Input/output error"]
           ["READ DISC INFORMATION:"; EmptyString]
           " Disc status:           blank");
    reflexivity.
Defined.

Section LastWrite.

Lemma build_lines_app_ok (a b : list string) (st sf : builder) :
  build_lines st (a ++ b) = Ok sf ->
  exists m, build_lines st a = Ok m /\ build_lines m b = Ok sf.
Proof.
  rewrite build_lines_app.
  destruct (build_lines st a) as [m|]; [simpl|discriminate].
  intros H. now exists m.
Qed.

Lemma build_lines_cons_ok (l : string) (ls : list string) (st sf : builder) :
  build_lines st (l :: ls) = Ok sf ->
  exists m, build_line st l = Ok m /\ build_lines m ls = Ok sf.
Proof.
  simpl. destruct (build_line st l) as [m|]; [simpl|discriminate].
  intros H. now exists m.
Qed.

Lemma sets_key_true (key line : string) :
  sets_key key line = true -> section_key line = Some key.
Proof.
  unfold sets_key. destruct (section_key line) as [k|]; [|discriminate].
  intros H. apply String.eqb_eq in H. now subst.
Qed.

Lemma never_set_Forall (key : string) (lines : list string) :
  never_set key lines = true ->
  Forall (fun l => section_key l <> Some key) lines.
Proof.
  unfold never_set. rewrite forallb_forall. intros H.
  apply Forall_forall. intros l In E. specialize (H l In).
  unfold sets_key in H. rewrite E, String.eqb_refl in H. discriminate H.
Qed.

(** What the line that sets [key] leaves behind. *)
Lemma build_line_sets (key line : string) (st st' : builder) :
  section_key line = Some key ->
  build_line st line = Ok st' ->
  if is_header line then
    current_child st' = Some key
    /\ PyDict.get key (media_info_tree st') = Some (Group [])
  else
    current_child st' = None
    /\ PyDict.get key (media_info_tree st')
       = Some (Scalar (value_part line)).
Proof.
  intros K. destruct (section_key_some _ _ K) as (S & I & a & b & E & A).
  unfold is_header, value_part. rewrite E. simpl.
  apply split_pair_ok in E. unfold build_line. rewrite S, I, E. simpl.
  rewrite A. destruct (PyStr.is_empty (PyStr.strip b));
    intros [= <-]; simpl; now rewrite get_set_same.
Qed.

(** A Group at [key] stays a Group while no line sets [key]. *)
Lemma build_line_group (key line : string) (st st' : builder) :
  is_group (PyDict.get key (media_info_tree st)) = true ->
  section_key line <> Some key ->
  build_line st line = Ok st' ->
  is_group (PyDict.get key (media_info_tree st')) = true.
Proof.
  intros G K. unfold section_key in K. unfold build_line.
  destruct (skipped line); simpl in *.
  { now intros [= <-]. }
  destruct (indented line); simpl in *.
  - destruct (split_pair line) as [[a b]|]; [simpl|discriminate].
    destruct (current_child st) as [ck|]; [|discriminate].
    intros [= <-]. simpl. rewrite get_child_set.
    destruct (String.eqb ck key); auto.
    destruct (PyDict.get key (media_info_tree st)) as [[s|g]|]; auto.
  - destruct (split_pair line) as [[a b]|] eqn:E; [simpl|discriminate].
    apply split_pair_ok in E. rewrite E in K.
    assert (N : PyStr.strip a <> key) by congruence.
    destruct (PyStr.is_empty (PyStr.strip b)); intros [= <-]; simpl;
      now rewrite get_set_other.
Qed.

Lemma build_lines_group (key : string) (ls : list string) : forall st st',
  is_group (PyDict.get key (media_info_tree st)) = true ->
  Forall (fun l => section_key l <> Some key) ls ->
  build_lines st ls = Ok st' ->
  is_group (PyDict.get key (media_info_tree st')) = true.
Proof.
  induction ls as [|l ls IH]; intros st st' G F; simpl.
  - now intros [= <-].
  - inversion F as [|? ? Fl Fr]; subst.
    destruct (build_line st l) as [m|] eqn:E; [simpl|discriminate].
    apply IH; auto. now apply (build_line_group _ _ _ _ G Fl E).
Qed.

(** A list of lines is its open block and a rest that, if any, starts
    with a line that is neither skipped nor indented. *)
Lemma open_block_split (lines : list string) :
  exists rest,
    lines = (open_block lines ++ rest)%list
    /\ match rest with
       | [] => True
       | l :: _ => skipped l = false /\ indented l = false
       end.
Proof.
  induction lines as [|l lines (rest & E & H)]; simpl.
  - now exists [].
  - destruct (skipped l) eqn:S; simpl.
    + exists rest. split; [simpl; now f_equal | exact H].
    + destruct (indented l) eqn:I.
      * exists rest. split; [simpl; now f_equal | exact H].
      * exists (l :: lines). now repeat split.
Qed.

Lemma open_block_all (lines : list string) :
  Forall (fun l => skipped l || indented l = true) (open_block lines).
Proof.
  induction lines as [|l lines IH]; simpl; [constructor|].
  destruct (skipped l || indented l) eqn:E; constructor; auto.
Qed.

(** The lines of a block write their sub-fields, one after the other, to
    the Group that is open, and leave it open. *)
Lemma build_block (key : string) (block : list string) : forall st st' d,
  Forall (fun l => skipped l || indented l = true) block ->
  current_child st = Some key ->
  PyDict.get key (media_info_tree st) = Some (Group d) ->
  build_lines st block = Ok st' ->
  current_child st' = Some key
  /\ PyDict.get key (media_info_tree st')
     = Some (Group (sub_fields block d)).
Proof.
  induction block as [|l block IH]; intros st st' d F C G; simpl.
  - intros [= <-]. now split.
  - inversion F as [|? ? Fl Fr]; subst.
    unfold build_line. destruct (skipped l) eqn:S; simpl in *.
    + now apply IH.
    + rewrite Fl.
      destruct (split_pair l) as [[a b]|] eqn:P; [simpl|discriminate].
      rewrite C. simpl. apply split_pair_ok in P.
      apply IH; auto. simpl.
      rewrite get_child_set, String.eqb_refl, G.
      unfold key_part, value_part. now rewrite P.
Qed.

(** A line that sets another section closes the Group at [key] and leaves
    its value alone. *)
Lemma build_line_top (key line : string) (st st' : builder) :
  skipped line = false ->
  indented line = false ->
  section_key line <> Some key ->
  build_line st line = Ok st' ->
  current_child st' <> Some key
  /\ PyDict.get key (media_info_tree st')
     = PyDict.get key (media_info_tree st).
Proof.
  intros S I K. unfold section_key in K. rewrite S, I in K. simpl in K.
  unfold build_line. rewrite S, I.
  destruct (split_pair line) as [[a b]|] eqn:E; [simpl|discriminate].
  apply split_pair_ok in E. rewrite E in K.
  assert (N : PyStr.strip a <> key) by congruence.
  destruct (PyStr.is_empty (PyStr.strip b)); intros [= <-]; simpl;
    (split; [congruence | now apply get_set_other]).
Qed.

End LastWrite.

(** C10.  When a section name occurs again, the tree holds at that name
    what its last occurrence sets: the value there is the one that the
    last line setting it, and the lines after that line, build on their
    own, so nothing of an earlier occurrence is left.  After a Scalar line
    it is that Scalar.  After a header it is the Group of the sub-fields
    of the indented lines that follow that header, up to the next line
    that is neither skipped nor indented, each written in its turn: the
    indented lines attach to the Group that was opened last. *)
Theorem last_section_wins (info : string) (pre post : list string)
  (line key : string) (t : MediaInfoTree) :
  lines_of info = (pre ++ line :: post)%list ->
  sets_key key line = true ->
  never_set key post = true ->
  build_media_info_tree info = Ok t ->
  (exists st, build_lines empty_builder (line :: post) = Ok st
              /\ PyDict.get key t = PyDict.get key (media_info_tree st))
  /\ (is_header line = false ->
      PyDict.get key t = Some (Scalar (value_part line)))
  /\ (is_header line = true ->
      PyDict.get key t = Some (Group (sub_fields (open_block post) []))).
Proof.
  intros L K N B. apply sets_key_true in K. apply never_set_Forall in N.
  unfold build_media_info_tree in B. fold (lines_of info) in B. rewrite L in B.
  destruct (build_lines empty_builder (pre ++ line :: post)) as [sf|] eqn:R;
    [simpl in B|discriminate].
  injection B as <-.
  destruct (build_lines_app_ok _ _ _ _ R) as (sp & _ & R1).
  destruct (build_lines_cons_ok _ _ _ _ R1) as (s1 & B1 & R2).
  pose proof (build_line_sets _ _ _ _ K B1) as Sets.
  split; [|split].
  - destruct (build_line_fresh _ _ empty_builder _ _ K B1) as (e1 & E1 & A).
    destruct (build_lines_agree _ _ _ _ _ A N R2) as (ef & Ef & [_ G]).
    exists ef. split; [|exact G]. simpl. now rewrite E1.
  - intros H. rewrite H in Sets. destruct Sets as [C G].
    rewrite <- G.
    assert (C' : current_child s1 <> Some key) by congruence.
    apply (build_lines_keeps _ _ _ _ C' N R2).
  - intros H. rewrite H in Sets. destruct Sets as [C G].
    destruct (open_block_split post) as (rest & E & Hr).
    rewrite E in R2, N.
    destruct (build_lines_app_ok _ _ _ _ R2) as (sb & Rb & Rr).
    destruct (build_block _ _ _ _ _ (open_block_all post) C G Rb)
      as [Cb Gb].
    apply Forall_app in N as [_ Nr].
    destruct rest as [|l0 rest'].
    + simpl in Rr. injection Rr as <-. exact Gb.
    + destruct Hr as [S0 I0]. inversion Nr as [|? ? N0 Nr']; subst.
      destruct (build_lines_cons_ok _ _ _ _ Rr) as (s2 & B2 & R3).
      destruct (build_line_top _ _ _ _ S0 I0 N0 B2) as [C2 G2].
      rewrite (build_lines_keeps _ _ _ _ C2 Nr' R3), G2. exact Gb.
Qed.

Lemma last_section_wins_witness :
  PyDict.get "READ TRACK INFORMATION" Revised.reopened_tree
  = Some (Group [("Free Blocks", "4162528*2KB");
                 ("Track Size", "9420192*2KB")])
  /\ PyDict.get "READ CAPACITY" Reports.repeated_tree
     = Some (Scalar "12088320*2048=24756879360").
Proof.
  split.
  - apply (last_section_wins Revised.reopened
             ["READ TRACK INFORMATION:";
              " Track State:           partial incremental";
              " Free Blocks:           0*2KB"]
             [" Free Blocks:           1*2KB";
              EmptyString;
              " Track Size:            9420192*2KB";
              " Free Blocks:           4162528*2KB";
              "READ CAPACITY:          12088320*2048=24756879360";
              "FABRICATED TOC:";
              " Track#1  :             14@0";
              EmptyString]
             "READ TRACK INFORMATION:" "READ TRACK INFORMATION"
             Revised.reopened_tree);
      reflexivity.
  - apply (last_section_wins Reports.repeated
             ["READ TRACK INFORMATION:";
              " Track State:           partial incremental";
              " Free Blocks:           0*2KB";
              "READ CAPACITY:          0*2048=0";
              "READ TRACK INFORMATION:";
              " Free Blocks:           4162528*2KB";
              "READ DISC INFORMATION:";
              " Disc status:           appendable"]
             [EmptyString]
             "READ CAPACITY:          12088320*2048=24756879360"
             "READ CAPACITY"
             Reports.repeated_tree);
      reflexivity.
Defined.

(** The tree of the report with the repeated sections, and what the
    resolver makes of it. *)
Example repeated_sections :
  build_media_info_tree Reports.repeated = Ok Reports.repeated_tree
  /\ parse_media_info Reports.repeated
     = Ok (mkMediaInfo 24756879360 8524857344 16232022016 false).
Proof. split; vm_compute; reflexivity. Qed.

(** ** The command-line layer: how computations add to the log *)

Section LogFacts.

Import Cli.

Variable P : event -> bool.

Lemma adds_ret {A : Type} (a : A) : adds P (ret a).
Proof. intros w. exists []. simpl. now rewrite app_nil_r. Qed.

Lemma adds_raise {A : Type} (e : error) : adds P (@raise A e).
Proof. intros w. exists []. simpl. now rewrite app_nil_r. Qed.

Lemma adds_lift {A : Type} (r : result A) : adds P (lift r).
Proof. destruct r; [apply adds_ret | apply adds_raise]. Qed.

Lemma adds_bind {A B : Type} (m : io A) (k : A -> io B) :
  adds P m -> (forall a, adds P (k a)) -> adds P (iobind m k).
Proof.
  intros Hm Hk w. unfold iobind.
  destruct (Hm w) as (e1 & L1 & F1).
  destruct (m w) as [[a|e] w1]; simpl in *.
  - destruct (Hk a w1) as (e2 & L2 & F2).
    exists (e1 ++ e2)%list. rewrite L2, L1, app_assoc. split; auto.
    rewrite forallb_app. now rewrite F1, F2.
  - now exists e1.
Qed.

Lemma adds_emit (e : event) : P e = true -> adds P (emit e).
Proof. intros H w. exists [e]. simpl. now rewrite H. Qed.

Lemma adds_run (oracle : list event -> list string -> answer)
  (args : list string) (capture : bool) :
  P (Run args capture) = true -> adds P (subprocess_run oracle args capture).
Proof.
  intros H w. exists [Run args capture]. unfold subprocess_run.
  destruct (oracle (log w) args); simpl; now rewrite H.
Qed.

Lemma adds_prompt_loop (lines : list string) : forall past,
  P (Prompted question) = true ->
  exists evs,
    log (snd (prompt_loop lines past)) = (past ++ evs)%list
    /\ forallb P evs = true.
Proof.
  induction lines as [|l lines IH]; intros past H; simpl.
  - exists [Prompted question]. simpl. now rewrite H.
  - destruct (String.eqb (PyText.lower l) "y");
      [exists [Prompted question]; simpl; now rewrite H|].
    destruct (String.eqb (PyText.lower l) "n"
              || String.eqb (PyText.lower l) EmptyString);
      [exists [Prompted question]; simpl; now rewrite H|].
    destruct (IH (past ++ [Prompted question])%list H) as (evs & L & F).
    exists (Prompted question :: evs). rewrite L, <- app_assoc. simpl.
    now rewrite H, F.
Qed.

Lemma adds_ask : P (Prompted question) = true -> adds P ask.
Proof. intros H w. apply adds_prompt_loop, H. Qed.

End LogFacts.

Section InputFacts.

Import Cli.

Lemma keeps_ret {A : Type} (a : A) : keeps_input (ret a).
Proof. now intros w. Qed.

Lemma keeps_raise {A : Type} (e : error) : keeps_input (@raise A e).
Proof. now intros w. Qed.

Lemma keeps_lift {A : Type} (r : result A) : keeps_input (lift r).
Proof. destruct r; [apply keeps_ret | apply keeps_raise]. Qed.

Lemma keeps_bind {A B : Type} (m : io A) (k : A -> io B) :
  keeps_input m -> (forall a, keeps_input (k a)) -> keeps_input (iobind m k).
Proof.
  intros Hm Hk w. unfold iobind. specialize (Hm w).
  destruct (m w) as [[a|e] w1]; simpl in *; [|assumption].
  now rewrite Hk.
Qed.

Lemma keeps_emit (e : event) : keeps_input (emit e).
Proof. now intros w. Qed.

Lemma keeps_run (oracle : list event -> list string -> answer)
  (args : list string) (capture : bool) :
  keeps_input (subprocess_run oracle args capture).
Proof.
  intros w. unfold subprocess_run. now destruct (oracle (log w) args).
Qed.

(** A computation after one that reads no input goes by the same input. *)
Lemma goes_by_input_bind {A : Type} (m : io A) (k : A -> io bool) :
  keeps_input m -> (forall a, goes_by_input (k a)) ->
  goes_by_input (iobind m k).
Proof.
  intros Hm Hk w b w'. unfold iobind. specialize (Hm w).
  destruct (m w) as [[a|e] w1]; simpl in *; [|discriminate].
  rewrite <- Hm. apply Hk.
Qed.

End InputFacts.

(** ** The command-line layer: what each function logs and reads *)

Section Functions.

Import Cli.

Variable oracle : list event -> list string -> answer.
Variable format_size : Z -> string.

Lemma preview_harmless (rc : RunConfig) (volume : string) (capture : bool) :
  harmless (Run (growisofs_args (with_dry_run rc) volume) capture) = true.
Proof. reflexivity. Qed.

(** Without [dry_run], the second argument is the speed, not the flag. *)
Lemma write_is_write (rc : RunConfig) (volume : string) (capture : bool) :
  writes_disc (Run (growisofs_args rc volume) capture) = negb (dry_run rc).
Proof. unfold growisofs_args. now destruct (dry_run rc). Qed.

Lemma adds_disc_write_impl (rc : RunConfig) (capture printing : bool) :
  adds harmless
    (disc_write_impl oracle (with_dry_run rc) capture printing).
Proof.
  unfold disc_write_impl. simpl. destruct (volume_id rc) as [v|].
  - apply adds_bind.
    + destruct printing; [now apply adds_emit | apply adds_ret].
    + intros _. apply adds_run, preview_harmless.
  - apply adds_raise.
Qed.

Lemma adds_read_media_info (device : Path) :
  adds harmless (read_media_info oracle device).
Proof.
  apply adds_bind; [now apply adds_run|].
  intros cp. destruct (stdout cp); [apply adds_lift | apply adds_raise].
Qed.

Lemma adds_get_bytes (rc : RunConfig) :
  adds harmless (get_bytes_to_be_written oracle rc).
Proof.
  apply adds_bind; [now apply adds_run|].
  intros cp. destruct (stdout cp) as [out|]; [|apply adds_raise].
  destruct (PyStr.int out); [apply adds_ret | apply adds_raise].
Qed.

Lemma adds_get_volume_id (device : Path) :
  adds harmless (get_volume_id oracle device).
Proof.
  apply adds_bind; [now apply adds_run|].
  intros cp. destruct (stdout cp); [apply adds_ret | apply adds_raise].
Qed.

Lemma adds_print (objs : list obj) : adds harmless (print objs).
Proof. now apply adds_emit. Qed.

Lemma adds_size_approximations (rc : RunConfig) :
  adds harmless (print_size_approximations oracle format_size rc).
Proof.
  apply adds_bind; [apply adds_read_media_info|]. intros mi.
  apply adds_bind; [apply adds_print|]. intros _.
  apply adds_bind; [apply adds_get_bytes|]. intros n.
  apply adds_bind; [apply adds_print|]. intros _. apply adds_print.
Qed.

Lemma adds_error_messages (rc : RunConfig) :
  adds harmless (print_disc_write_error_messages oracle rc).
Proof.
  apply adds_bind; [apply adds_disc_write_impl|]. intros cp.
  destruct (stderr cp) as [err|]; [|apply adds_raise].
  destruct (PyText.contains _ err); [|apply adds_ret].
  apply adds_bind; [apply adds_print|]. intros _. apply adds_print.
Qed.

Lemma adds_settle (rc : RunConfig) :
  adds harmless (settle_volume_id oracle rc).
Proof.
  unfold settle_volume_id.
  destruct (command rc), (volume_id rc);
    try apply adds_ret; try apply adds_raise.
  apply adds_bind; [apply adds_get_volume_id|]. intros v.
  apply adds_bind; [apply adds_print|]. intros _. apply adds_ret.
Qed.

Lemma keeps_disc_write_impl (rc : RunConfig) (capture printing : bool) :
  keeps_input (disc_write_impl oracle rc capture printing).
Proof.
  unfold disc_write_impl. destruct (volume_id rc) as [v|].
  - apply keeps_bind.
    + destruct printing; [apply keeps_emit | apply keeps_ret].
    + intros _. apply keeps_run.
  - apply keeps_raise.
Qed.

Lemma keeps_read_media_info (device : Path) :
  keeps_input (read_media_info oracle device).
Proof.
  apply keeps_bind; [apply keeps_run|].
  intros cp. destruct (stdout cp); [apply keeps_lift | apply keeps_raise].
Qed.

Lemma keeps_get_bytes (rc : RunConfig) :
  keeps_input (get_bytes_to_be_written oracle rc).
Proof.
  apply keeps_bind; [apply keeps_run|].
  intros cp. destruct (stdout cp) as [out|]; [|apply keeps_raise].
  destruct (PyStr.int out); [apply keeps_ret | apply keeps_raise].
Qed.

Lemma keeps_get_volume_id (device : Path) :
  keeps_input (get_volume_id oracle device).
Proof.
  apply keeps_bind; [apply keeps_run|].
  intros cp. destruct (stdout cp); [apply keeps_ret | apply keeps_raise].
Qed.

Lemma keeps_size_approximations (rc : RunConfig) :
  keeps_input (print_size_approximations oracle format_size rc).
Proof.
  apply keeps_bind; [apply keeps_read_media_info|]. intros mi.
  apply keeps_bind; [apply keeps_emit|]. intros _.
  apply keeps_bind; [apply keeps_get_bytes|]. intros n.
  apply keeps_bind; [apply keeps_emit|]. intros _. apply keeps_emit.
Qed.

Lemma keeps_error_messages (rc : RunConfig) :
  keeps_input (print_disc_write_error_messages oracle rc).
Proof.
  apply keeps_bind; [apply keeps_disc_write_impl|]. intros cp.
  destruct (stderr cp) as [err|]; [|apply keeps_raise].
  destruct (PyText.contains _ err); [|apply keeps_ret].
  apply keeps_bind; [apply keeps_emit|]. intros _. apply keeps_emit.
Qed.

Lemma keeps_settle (rc : RunConfig) :
  keeps_input (settle_volume_id oracle rc).
Proof.
  unfold settle_volume_id.
  destruct (command rc), (volume_id rc);
    try apply keeps_ret; try apply keeps_raise.
  apply keeps_bind; [apply keeps_get_volume_id|]. intros v.
  apply keeps_bind; [apply keeps_emit|]. intros _. apply keeps_ret.
Qed.

(** The loop, one turn unfolded: it is the [while True] of the source. *)
Lemma ask_turn (w : world) :
  ask w
  = iobind (input question)
      (fun line =>
         let key := PyText.lower line in
         if String.eqb key "y" then ret true
         else if String.eqb key "n" || String.eqb key EmptyString
              then ret false
              else ask) w.
Proof.
  unfold ask, iobind, input. destruct (stdin w) as [|l rest]; simpl; auto.
  destruct (String.eqb (PyText.lower l) "y"); auto.
  destruct (String.eqb (PyText.lower l) "n"
            || String.eqb (PyText.lower l) EmptyString); auto.
Qed.

Lemma prompt_loop_decision (lines : list string) : forall past b w',
  prompt_loop lines past = (Done b, w') -> first_decision lines = Some b.
Proof.
  induction lines as [|l lines IH]; intros past b w';
    cbn [prompt_loop]; [discriminate|].
  unfold first_decision in *. cbn [find]. unfold decides at 1.
  cbv zeta.
  destruct (String.eqb (PyText.lower l) "y") eqn:Y; cbn [orb option_map].
  { unfold says_yes. rewrite Y. now intros [= <- _]. }
  destruct (String.eqb (PyText.lower l) "n"
            || String.eqb (PyText.lower l) EmptyString) eqn:N;
    cbn [option_map].
  { unfold says_yes. rewrite Y. now intros [= <- _]. }
  intros H. apply (IH _ _ _ H).
Qed.

Lemma ask_goes_by_input : goes_by_input ask.
Proof. intros w b w'. apply prompt_loop_decision. Qed.

(** Without a deciding line the loop ends in [EOFError]. *)
Lemma prompt_loop_eof (lines : list string) : forall past,
  first_decision lines = None ->
  fst (prompt_loop lines past) = Fail EOFError.
Proof.
  induction lines as [|l lines IH]; intros past; cbn [prompt_loop]; auto.
  unfold first_decision in *. cbn [find]. unfold decides at 1.
  cbv zeta.
  destruct (String.eqb (PyText.lower l) "y"); cbn [orb option_map];
    [discriminate|].
  destruct (String.eqb (PyText.lower l) "n"
            || String.eqb (PyText.lower l) EmptyString);
    cbn [option_map]; [discriminate|].
  apply IH.
Qed.

End Functions.

(** ** The command-line layer: what a run does to the disc *)

Section Runs.

Import Cli.

Variable oracle : list event -> list string -> answer.
Variable format_size : Z -> string.

Lemma writes_app (a b : list event) :
  writes (a ++ b) = (writes a + writes b)%nat.
Proof. unfold writes. now rewrite filter_app, length_app. Qed.

Lemma writes_harmless (evs : list event) :
  forallb harmless evs = true -> writes evs = O.
Proof.
  unfold writes, harmless. induction evs as [|e evs IH]; simpl; auto.
  intros H. apply andb_prop in H as [He Hr].
  destruct (writes_disc e); [discriminate|]. auto.
Qed.

Lemma adds_weaken {A : Type} (P Q : event -> bool) (m : io A) :
  (forall e, P e = true -> Q e = true) -> adds P m -> adds Q m.
Proof.
  intros PQ H w. destruct (H w) as (evs & L & F). exists evs. split; auto.
  rewrite forallb_forall in *. auto.
Qed.

Lemma adds_confirmation_prompt (rc : RunConfig) :
  adds harmless (confirmation_prompt oracle format_size rc).
Proof.
  apply adds_bind.
  { apply adds_bind; [apply adds_disc_write_impl|].
    intros _. apply adds_ret. }
  intros _. apply adds_bind; [apply adds_print|].
  intros _. apply adds_bind; [apply adds_size_approximations|].
  intros _. apply adds_bind; [apply adds_error_messages|].
  intros _. apply adds_bind; [apply adds_print|].
  intros _. now apply adds_ask.
Qed.

Lemma confirmation_goes_by_input (rc : RunConfig) :
  goes_by_input (confirmation_prompt oracle format_size rc).
Proof.
  apply goes_by_input_bind.
  { apply keeps_bind; [apply keeps_disc_write_impl|].
    intros _. apply keeps_ret. }
  intros _. apply goes_by_input_bind; [apply keeps_emit|].
  intros _. apply goes_by_input_bind; [apply keeps_size_approximations|].
  intros _. apply goes_by_input_bind; [apply keeps_error_messages|].
  intros _. apply goes_by_input_bind; [apply keeps_emit|].
  intros _. apply ask_goes_by_input.
Qed.

(** What [main] has once the volume id is settled. *)
Lemma settle_done (rc rc' : RunConfig) (w w' : world) :
  settle_volume_id oracle rc w = (Done rc', w') ->
  dry_run rc' = dry_run rc /\ volume_id rc' <> None.
Proof.
  unfold settle_volume_id.
  destruct (command rc), (volume_id rc) as [v|] eqn:V;
    try (intros [= <- _]; split; [reflexivity | congruence]);
    try discriminate.
  unfold iobind.
  destruct (get_volume_id oracle (device rc) w) as [[vol|e] w1];
    [|discriminate].
  simpl. intros [= <- _]. simpl. split; [reflexivity | discriminate].
Qed.

(** The write and the report after it: one run that writes the disc. *)
Lemma write_and_report (rc : RunConfig) (volume : string) (w : world) :
  volume_id rc = Some volume ->
  dry_run rc = false ->
  exists evs,
    log (snd ((_ <~ disc_write oracle rc ;;
               media_info <~ read_media_info oracle (device rc) ;;
               print_bytes_free format_size media_info) w))
    = (log w ++ evs)%list
    /\ writes evs = 1%nat.
Proof.
  intros V D.
  assert (W : writes [Printed [OStr "Executing:";
                               OList (growisofs_args rc volume)];
                      Run (growisofs_args rc volume) false] = 1%nat).
  { unfold writes. cbn [filter]. rewrite write_is_write, D. reflexivity. }
  unfold disc_write, disc_write_impl. rewrite V.
  unfold iobind at 1 2 3. unfold print, emit, subprocess_run. cbn [log stdin].
  destruct (oracle _ (growisofs_args rc volume)) as [out err|e];
    cbn [ret fst snd log].
  - match goal with
    | |- context [iobind ?m ?k ?w0] =>
        assert (H : adds harmless (iobind m k));
          [|destruct (H w0) as (evs & L & F)]
    end.
    { apply adds_bind; [apply adds_read_media_info|].
      intros mi. apply adds_print. }
    rewrite L. cbn [log]. rewrite <- !app_assoc. eexists. split; [reflexivity|].
    cbn [app]. change (?a :: ?b :: evs) with ([a; b] ++ evs)%list.
    now rewrite writes_app, W, (writes_harmless _ F).
  - rewrite <- app_assoc. eexists. split; [reflexivity|]. exact W.
Qed.

(** X1.  Whatever the outside answers and however it ends,
    [confirmation_prompt] adds to the log no run that writes the disc:
    each run of [growisofs] it makes has [--dry-run] as its first option,
    also when [run_config.dry_run] is not set. *)
Theorem preview_never_writes (rc : RunConfig) (w : world) :
  exists evs,
    log (snd (confirmation_prompt oracle format_size rc w))
    = (log w ++ evs)%list
    /\ forallb harmless evs = true
    /\ writes evs = O.
Proof.
  destruct (adds_confirmation_prompt rc w) as (evs & L & F).
  exists evs. repeat split; auto. now apply writes_harmless.
Qed.

(** X2.  When [confirmation_prompt] returns, it returns the answer of the
    first line of the input that, in lower case, is [y], [n] or empty: true
    for [y], false for the other two.  The lines before it are asked
    over. *)
Theorem prompt_returns_first_answer (rc : RunConfig) (w w' : world)
  (b : bool) :
  confirmation_prompt oracle format_size rc w = (Done b, w') ->
  first_decision (stdin w) = Some b.
Proof. apply confirmation_goes_by_input. Qed.

(** X3.  A run of [main] writes the disc at most once, and only when
    [dry_run] is not set and the first deciding line of the input is a
    [y]; when it ends without an exception under these two conditions it
    has written the disc, whatever sizes were announced. *)
Theorem main_writes_once_after_yes (rc : RunConfig) (w : world) :
  exists evs,
    log (snd (main oracle format_size rc w)) = (log w ++ evs)%list
    /\ (writes evs <= 1)%nat
    /\ (writes evs = 1%nat ->
        dry_run rc = false /\ first_decision (stdin w) = Some true)
    /\ (fst (main oracle format_size rc w) = Done tt ->
        dry_run rc = false ->
        first_decision (stdin w) = Some true ->
        writes evs = 1%nat).
Proof.
  destruct (main oracle format_size rc w) as [r wf] eqn:EM. cbn [fst snd].
  unfold main in EM. unfold iobind at 1 in EM.
  destruct (adds_settle oracle rc w) as (e1 & L1 & F1).
  pose proof (keeps_settle oracle rc w) as K1.
  destruct (settle_volume_id oracle rc w) as [[rc'|e] w1] eqn:ES;
    cbn [fst snd] in *.
  2:{ injection EM as <- <-. exists e1. rewrite (writes_harmless _ F1).
      split; [exact L1|]. split; [lia|].
      split; intros H; discriminate H. }
  destruct (settle_done _ _ _ _ ES) as [D V].
  unfold iobind at 1 in EM.
  destruct (adds_confirmation_prompt rc' w1) as (e2 & L2 & F2).
  pose proof (confirmation_goes_by_input rc' w1) as G.
  destruct (confirmation_prompt oracle format_size rc' w1)
    as [[c|e] w2] eqn:EC; cbn [fst snd] in *.
  2:{ injection EM as <- <-. exists (e1 ++ e2)%list.
      rewrite writes_app, (writes_harmless _ F1), (writes_harmless _ F2).
      split; [now rewrite L2, L1, app_assoc|]. split; [simpl; lia|].
      split; intros H; discriminate H. }
  specialize (G c w2 eq_refl). rewrite K1 in G.
  destruct (c && negb (dry_run rc')) eqn:B.
  - apply andb_prop in B as [-> B].
    apply negb_true_iff in B. rewrite D in B.
    destruct (volume_id rc') as [v|] eqn:Vol; [|now destruct V].
    destruct (write_and_report rc' v w2 Vol ltac:(congruence))
      as (e3 & L3 & W3).
    rewrite EM in L3. cbn [snd] in L3.
    exists (e1 ++ e2 ++ e3)%list.
    rewrite !writes_app, (writes_harmless _ F1), (writes_harmless _ F2), W3.
    split; [now rewrite L3, L2, L1, <- !app_assoc|]. split; [simpl; lia|].
    split; [intros _; now split | intros _ _ _; reflexivity].
  - injection EM as <- <-. exists (e1 ++ e2)%list.
    rewrite writes_app, (writes_harmless _ F1), (writes_harmless _ F2).
    split; [now rewrite L2, L1, app_assoc|]. split; [simpl; lia|].
    split; [intros H; discriminate H|].
    intros _ Dr Y. rewrite Y in G. injection G as <-.
    rewrite D, Dr in B. discriminate B.
Qed.

End Runs.

Section MoreRuns.

Import Cli.

Variable oracle : list event -> list string -> answer.
Variable format_size : Z -> string.

Lemma adds_any {A : Type} (m : io A) : adds harmless m -> adds any_event m.
Proof. apply adds_weaken. reflexivity. Qed.

Lemma adds_any_disc_write (rc : RunConfig) :
  adds any_event (disc_write oracle rc).
Proof.
  apply adds_bind; [|intros _; apply adds_ret].
  unfold disc_write_impl. destruct (volume_id rc); [|apply adds_raise].
  apply adds_bind; [now apply adds_emit|].
  intros _. now apply adds_run.
Qed.

Lemma log_grows_bind {A B : Type} (m : io A) (k : A -> io B) (w : world) :
  (forall a, adds any_event (k a)) ->
  exists evs, log (snd (iobind m k w)) = (log (snd (m w)) ++ evs)%list.
Proof.
  intros H. unfold iobind. destruct (m w) as [[a|e] w1]; simpl.
  - destruct (H a w1) as (evs & L & _). now exists evs.
  - exists []. now rewrite app_nil_r.
Qed.

(** The two events of a [disc_write], however the process ends. *)
Lemma log_disc_write (rc : RunConfig) (volume : string) (w : world) :
  volume_id rc = Some volume ->
  log (snd (disc_write oracle rc w))
  = (log w ++ [Printed [OStr "Executing:"; OList (growisofs_args rc volume)];
               Run (growisofs_args rc volume) false])%list.
Proof.
  intros V. unfold disc_write, disc_write_impl. rewrite V.
  unfold iobind, print, emit, subprocess_run. cbn [log stdin].
  destruct (oracle _ (growisofs_args rc volume)); cbn [ret snd log];
    now rewrite <- app_assoc.
Qed.

(** X4.  [main] refuses to initialise a disc without a volume id: it
    raises [RuntimeError] before it runs, prints or reads anything. *)
Theorem init_without_volume_id_is_refused (rc : RunConfig) (w : world) :
  command rc = INIT ->
  volume_id rc = None ->
  main oracle format_size rc w = (Fail RuntimeError, w).
Proof.
  intros C V. unfold main, iobind, settle_volume_id. now rewrite C, V.
Qed.

(** X5.  Appending without a volume id, [main] first asks [blkid] for the
    label of [/dev/sr0], whatever device it was given; the trimmed output
    is announced and is the volume id of the dry run that follows. *)
Theorem volume_id_is_read_from_sr0 (rc : RunConfig) (w : world)
  (out err : string) :
  command rc = APPEND ->
  volume_id rc = None ->
  oracle (log w)
    ["blkid"; "--output"; "value"; "--match-tag"; "LABEL"; "/dev/sr0"]
  = Completed out err ->
  exists rest,
    log (snd (main oracle format_size rc w))
    = (log w
       ++ [Run ["blkid"; "--output"; "value"; "--match-tag"; "LABEL";
                "/dev/sr0"] true;
           Printed [OStr "Using volume id:"; OStr (PyStr.strip out)];
           Printed [OStr "Executing:";
                    OList (growisofs_args
                             (with_dry_run (with_volume_id rc (PyStr.strip out)))
                             (PyStr.strip out))];
           Run (growisofs_args
                  (with_dry_run (with_volume_id rc (PyStr.strip out)))
                  (PyStr.strip out)) false]
       ++ rest)%list.
Proof.
  intros C V O.
  set (rc1 := with_volume_id rc (PyStr.strip out)).
  set (w1 := mkWorld (stdin w)
               ((log w ++ [Run blkid_args true])
                ++ [Printed [OStr "Using volume id:";
                             OStr (PyStr.strip out)]])%list).
  assert (S : settle_volume_id oracle rc w = (Done rc1, w1)).
  { unfold settle_volume_id. rewrite C, V.
    unfold iobind, get_volume_id, iobind, subprocess_run.
    change blkid_args
      with ["blkid"; "--output"; "value"; "--match-tag"; "LABEL"; "/dev/sr0"].
    rewrite O. reflexivity. }
  unfold main. unfold iobind at 1. rewrite S.
  unfold confirmation_prompt.
  match goal with
  | |- context [iobind (iobind ?m ?k1) ?k2 w1] =>
      destruct (log_grows_bind (iobind m k1) k2 w1) as (e2 & L2);
        [|destruct (log_grows_bind m k1 w1) as (e1 & L1)]
  end.
  - intros c. destruct (c && negb (dry_run rc1)); [|apply adds_ret].
    apply adds_bind; [apply adds_any_disc_write|]. intros _.
    apply adds_any, adds_bind; [apply adds_read_media_info|].
    intros mi. apply adds_print.
  - intros _. apply adds_any.
    apply adds_bind; [apply adds_print|].
    intros _. apply adds_bind; [apply adds_size_approximations|].
    intros _. apply adds_bind; [apply adds_error_messages|].
    intros _. apply adds_bind; [apply adds_print|].
    intros _. now apply adds_ask.
  - rewrite L2, L1.
    rewrite (log_disc_write (with_dry_run rc1) (PyStr.strip out) w1 eq_refl).
    exists (e1 ++ e2)%list. unfold w1. cbn [log].
    rewrite <- !app_assoc. reflexivity.
Qed.

End MoreRuns.

Section Sizes.

Import Cli.

Lemma space_char (c : ascii) :
  PyStr.int_space c = true ->
  PyStr.digit c = None /\ PyStr.is_underscore c = false.
Proof.
  destruct c as [[] [] [] [] [] [] [] []]; intros H;
    try discriminate H; split; reflexivity.
Qed.

Lemma int_scan_digits_space (ds ws : string) : forall acc,
  Digits.all_digits ds = true ->
  PyStr.all_space ws = true ->
  PyStr.int_scan acc false (ds ++ ws)
  = Some (acc * 10 ^ Z.of_nat (String.length ds) + Digits.decimal ds).
Proof.
  induction ds as [|c r IH]; intros acc D W;
    cbn [String.append PyStr.int_scan Digits.decimal Digits.all_digits
         String.length] in *.
  - change (Z.of_nat 0) with 0. rewrite Z.pow_0_r, Z.mul_1_r, Z.add_0_r.
    destruct ws as [|c r]; [reflexivity|].
    cbn [PyStr.int_scan]. cbn [PyStr.all_space] in W.
    pose proof W as W'. apply andb_prop in W' as [Wc _].
    destruct (space_char c Wc) as [-> ->].
    cbn [PyStr.all_space]. now rewrite W.
  - apply andb_prop in D as [Dc Dr].
    destruct (digit_char c Dc) as (-> & _).
    rewrite (IH _ Dr W). f_equal.
    rewrite Nat2Z.inj_succ, Z.pow_succ_r by lia. ring.
Qed.

(** [int] reads a run of digits followed by white space. *)
Lemma int_digits_space (ds ws : string) :
  Digits.is_digits ds = true ->
  PyStr.all_space ws = true ->
  PyStr.int (ds ++ ws) = Some (Digits.decimal ds).
Proof.
  unfold Digits.is_digits. destruct ds as [|c r]; [discriminate|].
  simpl. intros H W. apply andb_prop in H as [Hc Hr].
  destruct (digit_char c Hc) as (Hd & Hs & _ & Hp & Hm).
  assert (E : PyStr.int (String c (r ++ ws))
              = PyStr.int_unsigned (String c (r ++ ws))).
  { unfold PyStr.int. simpl. rewrite Hs.
    destruct c as [[] [] [] [] [] [] [] []]; try reflexivity;
      discriminate. }
  rewrite E. simpl. rewrite Hd, (int_scan_digits_space _ _ _ Hr W).
  reflexivity.
Qed.

Variable oracle : list event -> list string -> answer.

(** X6.  When [mkisofs] completes and prints a run of digits and a newline,
    [get_bytes_to_be_written] returns that number times 2048, having run
    [mkisofs --print-size --quiet] over the source paths; when it prints
    nothing the result is [ValueError]. *)
Theorem bytes_to_be_written_reads_sectors (rc : RunConfig) (w : world)
  (out err : string) :
  oracle (log w) (mkisofs_args rc) = Completed out err ->
  (forall digits,
     Digits.is_digits digits = true ->
     out = digits ++ String newline EmptyString ->
     get_bytes_to_be_written oracle rc w
     = (Done (Digits.decimal digits * 2048),
        mkWorld (stdin w)
          (log w
           ++ [Run (["mkisofs"; "-iso-level"; "3"; "-l"; "-T"; "-R"; "-J";
                     "--joliet-long"; "--print-size"; "--quiet"]
                    ++ source_paths rc) true])%list))
  /\ (out = EmptyString ->
      fst (get_bytes_to_be_written oracle rc w) = Fail (Exn ValueError)).
Proof.
  intros O. unfold get_bytes_to_be_written, iobind, subprocess_run.
  rewrite O. cbn [stdout]. split.
  - intros digits D ->.
    now rewrite (int_digits_space digits (String newline EmptyString) D
                   eq_refl).
  - now intros ->.
Qed.

End Sizes.

Section Options.

Import Cli.

Lemma upper_of_lower_char (c : ascii) :
  PyText.upper_char (if PyText.is_upper c then PyText.shift_down c else c)
  = PyText.upper_char c.
Proof. destruct c as [[] [] [] [] [] [] [] []]; reflexivity. Qed.

Lemma upper_of_lower (s : string) :
  PyText.upper (PyText.lower s) = PyText.upper s.
Proof.
  induction s as [|c r IH]; simpl; auto.
  now rewrite upper_of_lower_char, IH.
Qed.

Lemma from_command_option_lower (value : string) :
  from_command_option (PyText.lower value) = from_command_option value.
Proof. unfold from_command_option. now rewrite upper_of_lower. Qed.

(** X7.  [from_command_option] takes each option that
    [list_command_options] lists back to its command, so no choice that
    the argument parser admits raises [KeyError]; and it ignores case: a
    value whose lower-case form is the option of a command gives that
    command. *)
Theorem command_options_round_trip :
  (forall c, In (PyText.lower (name c)) list_command_options
             /\ from_command_option (PyText.lower (name c)) = Ok c)
  /\ (forall value, In value list_command_options ->
                    exists c, from_command_option value = Ok c
                              /\ PyText.lower (name c) = value)
  /\ (forall value c, PyText.lower value = PyText.lower (name c) ->
                      from_command_option value = Ok c).
Proof.
  assert (R : forall c, from_command_option (PyText.lower (name c)) = Ok c)
    by (intros []; reflexivity).
  split; [|split].
  - intros c. split; [|apply R]. destruct c; simpl; auto.
  - intros value [<-|[<-|[]]]; [exists INIT | exists APPEND];
      split; reflexivity.
  - intros value c H. rewrite <- from_command_option_lower, H. apply R.
Qed.

End Options.

Section Warning.

Import Cli.

Lemma prefix_spec (p s : string) :
  String.prefix p s = true <-> exists b, s = p ++ b.
Proof.
  revert s. induction p as [|c p IH]; intros s.
  - split; [intros _; now exists s | intros _; now destruct s].
  - destruct s as [|d s]; simpl;
      [split; [discriminate | intros (b & H); discriminate H]|].
    destruct (ascii_dec c d) as [->|N].
    + rewrite IH. split; intros (b & H); exists b; congruence.
    + split; [discriminate|]. intros (b & H). congruence.
Qed.

(** [needle in s] holds exactly of the strings that hold [needle]. *)
Lemma contains_spec (needle s : string) :
  PyText.contains needle s = true <-> exists a b, s = a ++ needle ++ b.
Proof.
  induction s as [|c s IH]; cbn [PyText.contains].
  - rewrite orb_false_r, prefix_spec. split.
    + intros (b & H). now exists EmptyString, b.
    + intros ([|x a] & b & H); [now exists b | discriminate H].
  - rewrite orb_true_iff, IH, (prefix_spec needle (String c s)). split.
    + intros [(b & H)|(a & b & H)].
      * now exists EmptyString, b.
      * exists (String c a), b. simpl. now rewrite H.
    + intros ([|x a] & b & H).
      * left. now exists b.
      * right. injection H as _ H. now exists a, b.
Qed.

Variable oracle : list event -> list string -> answer.

(** X12.  [print_disc_write_error_messages] makes one more dry run of
    [growisofs], its output captured.  When the run completes, the warning
    in red is printed exactly when the captured error output holds the
    words [already carries isofs]; when the run raises, the exception goes
    on and nothing is printed. *)
Theorem warning_follows_dry_run (rc : RunConfig) (volume : string)
  (w : world) :
  volume_id rc = Some volume ->
  let args := growisofs_args (with_dry_run rc) volume in
  let ran := (log w ++ [Run args true])%list in
  (forall out err,
     oracle (log w) args = Completed out err ->
     ((exists a b, err = a ++ "already carries isofs" ++ b) ->
      print_disc_write_error_messages oracle rc w
      = (Done tt,
         mkWorld (stdin w)
           (ran ++ [Printed [OStr EmptyString]; Printed warning])%list))
     /\ (~ (exists a b, err = a ++ "already carries isofs" ++ b) ->
         print_disc_write_error_messages oracle rc w
         = (Done tt, mkWorld (stdin w) ran)))
  /\ (forall e,
        oracle (log w) args = Failed e ->
        print_disc_write_error_messages oracle rc w
        = (Fail e, mkWorld (stdin w) ran)).
Proof.
  intros V args ran.
  assert (E : disc_write_impl oracle (with_dry_run rc) true false w
              = match oracle (log w) args with
                | Completed out err =>
                    (Done (mkCompleted (Some out) (Some err)),
                     mkWorld (stdin w) ran)
                | Failed e => (Fail e, mkWorld (stdin w) ran)
                end).
  { unfold disc_write_impl. cbn [with_dry_run volume_id]. rewrite V.
    reflexivity. }
  assert (P : print_disc_write_error_messages oracle rc w
              = match oracle (log w) args with
                | Completed out err =>
                    if PyText.contains "already carries isofs" err then
                      (Done tt,
                       mkWorld (stdin w)
                         (ran ++ [Printed [OStr EmptyString];
                                  Printed warning])%list)
                    else (Done tt, mkWorld (stdin w) ran)
                | Failed e => (Fail e, mkWorld (stdin w) ran)
                end).
  { unfold print_disc_write_error_messages. unfold iobind at 1. rewrite E.
    destruct (oracle (log w) args) as [out err|e]; [|reflexivity].
    cbn [stderr]. destruct (PyText.contains _ err); [|reflexivity].
    unfold iobind, print, emit. cbn [log stdin].
    now rewrite <- app_assoc. }
  rewrite P. split.
  - intros out err ->. split; intros H.
    + apply contains_spec in H. now rewrite H.
    + destruct (PyText.contains "already carries isofs" err) eqn:C;
        [|reflexivity].
      apply contains_spec in C. now destruct H.
  - now intros e ->.
Qed.

(** X13.  [disc_write_impl] without a volume id raises [ValueError] and
    runs nothing.  [main] never meets this: when its [match] on the
    command is passed, the volume id is set, and the command, the device,
    the source paths, the speed and [dry_run] are as they were. *)
Theorem volume_id_is_settled (rc : RunConfig) (w : world) :
  (volume_id rc = None ->
   forall capture printing,
     disc_write_impl oracle rc capture printing w
     = (Fail (Exn ValueError), w))
  /\ (forall rc' w',
        settle_volume_id oracle rc w = (Done rc', w') ->
        (exists volume, volume_id rc' = Some volume)
        /\ command rc' = command rc
        /\ device rc' = device rc
        /\ source_paths rc' = source_paths rc
        /\ speed rc' = speed rc
        /\ dry_run rc' = dry_run rc).
Proof.
  split.
  - intros V capture printing. unfold disc_write_impl. now rewrite V.
  - intros rc' w'. unfold settle_volume_id.
    destruct (command rc) eqn:C, (volume_id rc) as [v|] eqn:V;
      try discriminate;
      try (intros [= <- _]; rewrite V, C; repeat split; now exists v).
    unfold iobind.
    destruct (get_volume_id oracle (device rc) w) as [[vol|e] w1];
      [|discriminate].
    simpl. intros [= <- _]. simpl. rewrite C. repeat split. now exists vol.
Qed.

End Warning.

(** ** Further facts about the builder and the resolver *)

Section Padding.

Lemma space_not_colon (c : ascii) :
  PyStr.isspace c = true -> Ascii.eqb c colon = false.
Proof.
  destruct c as [[] [] [] [] [] [] [] []]; intros H;
    try discriminate H; reflexivity.
Qed.

Lemma all_isspace_no_colon (ws : string) :
  all_isspace ws = true -> count colon ws = O.
Proof.
  induction ws as [|c r IH]; simpl; auto.
  intros H. apply andb_prop in H as [Hc Hr].
  now rewrite (space_not_colon c Hc), IH.
Qed.

Lemma lstrip_all_isspace (ws : string) :
  all_isspace ws = true -> PyStr.lstrip ws = EmptyString.
Proof.
  induction ws as [|c r IH]; simpl; auto.
  intros H. apply andb_prop in H as [Hc Hr]. now rewrite Hc, IH.
Qed.

Lemma rstrip_all_isspace (ws : string) :
  all_isspace ws = true -> PyStr.rstrip ws = EmptyString.
Proof.
  induction ws as [|c r IH]; simpl; auto.
  intros H. apply andb_prop in H as [Hc Hr]. now rewrite (IH Hr), Hc.
Qed.

Lemma rstrip_padded (s ws : string) :
  all_isspace ws = true -> PyStr.rstrip (s ++ ws) = PyStr.rstrip s.
Proof.
  intros W. induction s as [|c r IH]; simpl.
  - now apply rstrip_all_isspace.
  - now rewrite IH.
Qed.

Lemma strip_padded (s ws : string) :
  all_isspace ws = true -> PyStr.strip (s ++ ws) = PyStr.strip s.
Proof.
  intros W. unfold PyStr.strip. induction s as [|c r IH]; simpl.
  - now rewrite (lstrip_all_isspace _ W).
  - destruct (PyStr.isspace c); [exact IH|].
    change (String c (r ++ ws)) with (String c r ++ ws).
    now apply rstrip_padded.
Qed.

Lemma append_cons_assoc (a b ws : string) (c : ascii) :
  (a ++ String c b) ++ ws = a ++ String c (b ++ ws).
Proof. induction a as [|x a IH]; simpl; [reflexivity | now rewrite IH]. Qed.

(** A string with one occurrence of [c], cut there. *)
Lemma cut_at_only (c : ascii) (s : string) :
  count c s = 1%nat ->
  exists a b, s = a ++ String c b /\ count c a = O /\ count c b = O.
Proof.
  induction s as [|x r IH]; simpl; [discriminate|].
  destruct (Ascii.eqb x c) eqn:E.
  - intros [= H]. apply Ascii.eqb_eq in E. subst x.
    exists EmptyString, r. now repeat split.
  - intros H. destruct (IH H) as (a & b & -> & A & B).
    exists (String x a), b. simpl. rewrite E. now repeat split.
Qed.

Lemma split_pair_padded (line ws : string) :
  all_isspace ws = true ->
  split_pair (line ++ ws)
  = match split_pair line with
    | Ok (a, b) => Ok (a, b ++ ws)
    | Raise e => Raise e
    end.
Proof.
  intros W. pose proof (all_isspace_no_colon _ W) as N.
  destruct (Nat.eq_dec (count colon line) 1) as [C|C].
  - destruct (cut_at_only _ _ C) as (a & b & -> & A & B).
    assert (P1 : split_pair (a ++ String colon b) = Ok (a, b)).
    { apply split_pair_ok. now apply split_at_only. }
    assert (P2 : split_pair (a ++ String colon (b ++ ws)) = Ok (a, b ++ ws)).
    { apply split_pair_ok. apply split_at_only; auto.
      now rewrite count_app, B, N. }
    rewrite P1, <- P2. f_equal. apply append_cons_assoc.
  - rewrite (split_pair_raises _ C). apply split_pair_raises.
    now rewrite count_app, N, Nat.add_0_r.
Qed.

Lemma skipped_padded (line ws : string) :
  all_isspace ws = true -> skipped (line ++ ws) = skipped line.
Proof.
  intros W. unfold skipped. rewrite (strip_padded _ _ W).
  destruct line as [|c r]; reflexivity.
Qed.

Lemma build_line_padded (st : builder) (line ws : string) :
  all_isspace ws = true ->
  build_line st (line ++ ws) = build_line st line.
Proof.
  intros W. unfold build_line.
  rewrite (skipped_padded _ _ W), (split_pair_padded _ _ W).
  destruct (skipped line) eqn:S; [reflexivity|].
  assert (I : indented (line ++ ws) = indented line).
  { destruct line as [|c r]; [|reflexivity]. discriminate S. }
  rewrite I.
  destruct (split_pair line) as [[a b]|e]; [|reflexivity].
  simpl. now rewrite (strip_padded _ _ W).
Qed.

Lemma build_lines_padded (lines lines' : list string) :
  Forall2 padded lines lines' ->
  forall st, build_lines st lines' = build_lines st lines.
Proof.
  induction 1 as [|l l' ls ls' (ws & W & ->) _ IH]; intros st; simpl; auto.
  rewrite (build_line_padded _ _ _ W).
  destruct (build_line st l); simpl; auto.
Qed.

End Padding.

(** X8.  White space at the end of a line plays no part: two reports whose
    lines differ only by trailing white space, such as the carriage return
    of a line that ends in CR LF, give the same tree and the same
    record or exception. *)
Theorem trailing_white_space_is_ignored (info info' : string) :
  Forall2 padded (lines_of info) (lines_of info') ->
  build_media_info_tree info' = build_media_info_tree info
  /\ parse_media_info info' = parse_media_info info.
Proof.
  intros H.
  assert (B : build_media_info_tree info' = build_media_info_tree info).
  { unfold build_media_info_tree. fold (lines_of info) (lines_of info').
    now rewrite (build_lines_padded _ _ H). }
  split; [exact B|]. unfold parse_media_info. now rewrite B.
Qed.

Section Skipping.

Lemma build_lines_kept (lines : list string) : forall st,
  build_lines st (filter (fun l => negb (skipped l)) lines)
  = build_lines st lines.
Proof.
  induction lines as [|l lines IH]; intros st; cbn [filter]; auto.
  destruct (skipped l) eqn:S; cbn [negb build_lines].
  - unfold build_line. rewrite S. simpl. apply IH.
  - destruct (build_line st l); simpl; auto.
Qed.

End Skipping.

(** X9.  The skipped lines, blank ones and those that start with a colon,
    can stand anywhere or be left out: two reports with the same other
    lines in the same order give the same tree and the same record or
    exception.  A report with no other line gives the empty tree, on which
    the resolver raises [KeyError]. *)
Theorem skipped_lines_do_not_matter (info info' : string) :
  kept_lines info = kept_lines info' ->
  build_media_info_tree info = build_media_info_tree info'
  /\ parse_media_info info = parse_media_info info'
  /\ (kept_lines info = [] ->
      build_media_info_tree info = Ok []
      /\ parse_media_info info = Raise KeyError).
Proof.
  intros H.
  assert (E : forall i, build_media_info_tree i
                        = (st <- build_lines empty_builder (kept_lines i) ;;
                           Ok (media_info_tree st))).
  { intros i. unfold build_media_info_tree, kept_lines.
    fold (lines_of i). now rewrite build_lines_kept. }
  assert (B : build_media_info_tree info = build_media_info_tree info')
    by now rewrite !E, H.
  split; [exact B|]. split.
  - unfold parse_media_info. now rewrite B.
  - intros K. assert (T : build_media_info_tree info = Ok [])
      by now rewrite E, K.
    split; [exact T|]. unfold parse_media_info. now rewrite T.
Qed.

Section Swapping.

Lemma get_swap {V : Type} (pre post : PyDict.dict V) (x y : string * V)
  (k : string) :
  fst x <> fst y ->
  PyDict.get k (pre ++ x :: y :: post)%list
  = PyDict.get k (pre ++ y :: x :: post)%list.
Proof.
  intros N. induction pre as [|[k0 v0] pre IH]; simpl.
  - destruct x as [kx vx], y as [ky vy]. simpl in *.
    destruct (String.eqb kx k) eqn:X, (String.eqb ky k) eqn:Y; auto.
    apply String.eqb_eq in X, Y. congruence.
  - now rewrite IH.
Qed.

Lemma scan_swap (pre post : list (string * child)) (x y : string * child)
  (free : option Z) :
  has_free_blocks (snd x) && has_free_blocks (snd y) = false ->
  scan_free_blocks (pre ++ x :: y :: post) free
  = scan_free_blocks (pre ++ y :: x :: post) free.
Proof.
  intros H. rewrite !scan_app.
  destruct (scan_free_blocks pre free) as [f|]; simpl; auto.
  destruct x as [kx [sx|gx]], y as [ky [sy|gy]]; simpl in *; auto.
  destruct (PyDict.get "Free Blocks" gx), (PyDict.get "Free Blocks" gy);
    auto; discriminate H.
Qed.

End Swapping.

(** X10.  Two neighbouring sections of different names, not both carrying
    ["Free Blocks"], can change places in the tree without any change to
    what the resolver returns or raises: the order of the sections counts
    among the Groups with ["Free Blocks"] only. *)
Theorem sections_may_swap (pre post : MediaInfoTree) (x y : string * child) :
  fst x <> fst y ->
  has_free_blocks (snd x) && has_free_blocks (snd y) = false ->
  resolve (pre ++ x :: y :: post)%list = resolve (pre ++ y :: x :: post)%list.
Proof.
  intros N H.
  unfold resolve, resolve_total_size, format_capacity, read_capacity,
    resolve_is_blank, resolve_free_size, sub_field.
  rewrite !(get_swap pre post x y _ N), (scan_swap pre post x y None H).
  reflexivity.
Qed.

Lemma sections_may_swap_witness :
  resolve (Cases.track1
           ++ ("READ CAPACITY", Scalar "12088320*2048=24756879360")
              :: ("READ TRACK INFORMATION[#3]", Group Cases.track3) :: [])%list
  = resolve Cases.written.
Proof.
  apply (sections_may_swap Cases.track1 []
           ("READ CAPACITY", Scalar "12088320*2048=24756879360")
           ("READ TRACK INFORMATION[#3]", Group Cases.track3)).
  - intros H. discriminate H.
  - reflexivity.
Defined.

Section SignedSizes.

Lemma int_unsigned_digits (s : string) :
  Digits.is_digits s = true ->
  PyStr.int_unsigned s = Some (Digits.decimal s).
Proof.
  unfold Digits.is_digits. destruct s as [|c r]; [discriminate|].
  simpl. intros H. apply andb_prop in H as [Hc Hr].
  destruct (digit_char c Hc) as (Hd & _).
  rewrite Hd, (int_scan_digits _ _ Hr). reflexivity.
Qed.

Lemma before_star_cut (a rest : string) :
  count star a = O -> before_star (a ++ "*" ++ rest) = a.
Proof.
  intros N. unfold before_star. change ("*" ++ rest) with (String star rest).
  now rewrite (split_at_first _ _ _ N).
Qed.

End SignedSizes.

(** X11.  The resolver does not insist on the shape [<digits>*<rest>]: a
    size value that is a run of digits without a star is read whole, and a
    minus sign before the digits is taken, giving a negative number of
    bytes. *)
Theorem size_values_read_leniently (digits rest : string) :
  Digits.is_digits digits = true ->
  size_of digits = Ok (Digits.decimal digits * 2048)
  /\ size_of ("-" ++ digits ++ "*" ++ rest)
     = Ok (- Digits.decimal digits * 2048)
  /\ forall t,
       PyDict.get "READ FORMAT CAPACITIES" t = None ->
       PyDict.get "READ CAPACITY" t
       = Some (Scalar ("-" ++ digits ++ "*" ++ rest)) ->
       resolve_total_size t = Ok (- Digits.decimal digits * 2048).
Proof.
  intros D.
  assert (A : Digits.all_digits digits = true).
  { unfold Digits.is_digits in D. now apply andb_prop in D as [_ ?]. }
  assert (S1 : size_of digits = Ok (Digits.decimal digits * 2048)).
  { unfold size_of, before_star.
    rewrite (split_no_sep _ _ (digits_no_star _ A)). simpl.
    now rewrite (int_digits _ D). }
  assert (S2 : size_of ("-" ++ digits ++ "*" ++ rest)
               = Ok (- Digits.decimal digits * 2048)).
  { unfold size_of.
    change ("-" ++ digits ++ "*" ++ rest)
      with (String "-" digits ++ "*" ++ rest).
    rewrite before_star_cut by (simpl; apply (digits_no_star _ A)).
    unfold PyStr.int. simpl.
    now rewrite (int_unsigned_digits _ D). }
  split; [exact S1|]. split; [exact S2|].
  intros t F C.
  unfold resolve_total_size, format_capacity, sub_field, read_capacity.
  rewrite F, C. exact S2.
Qed.

Lemma size_values_read_leniently_witness :
  size_of "12088320" = Ok 24756879360
  /\ size_of "-12088320*2048" = Ok (-24756879360).
Proof.
  split; apply (size_values_read_leniently "12088320" "2048" eq_refl).
Defined.

(** ** Instances of the further statements *)

Section Instances.

Import Cli.

Lemma prompt_returns_first_answer_witness :
  first_decision ["maybe"; "Y"; "n"] = Some true.
Proof.
  eapply (prompt_returns_first_answer sample_oracle sample_format_size
            sample_config (sample_world ["maybe"; "Y"; "n"])).
  vm_compute. reflexivity.
Defined.

Lemma main_writes_once_after_yes_witness :
  exists evs,
    log (snd (main sample_oracle sample_format_size sample_config
                (sample_world ["maybe"; "Y"])))
    = evs
    /\ writes evs = 1%nat.
Proof.
  destruct (main_writes_once_after_yes sample_oracle sample_format_size
              sample_config (sample_world ["maybe"; "Y"]))
    as (evs & L & _ & _ & W).
  exists evs. split; [exact L|]. apply W; reflexivity.
Defined.

Lemma init_without_volume_id_is_refused_witness :
  main sample_oracle sample_format_size More.init_unnamed
    (sample_world ["y"])
  = (Fail RuntimeError, sample_world ["y"]).
Proof.
  apply (init_without_volume_id_is_refused sample_oracle sample_format_size
           More.init_unnamed (sample_world ["y"]));
    reflexivity.
Defined.

Lemma volume_id_is_read_from_sr0_witness :
  exists rest,
    log (snd (main sample_oracle sample_format_size More.append_unnamed
                (sample_world ["n"])))
    = ([Run ["blkid"; "--output"; "value"; "--match-tag"; "LABEL";
             "/dev/sr0"] true;
        Printed [OStr "Using volume id:"; OStr "BACKUP"];
        Printed [OStr "Executing:";
                 OList ["growisofs"; "--dry-run"; "--speed=4"; "-M";
                        "/dev/sr1"; "-iso-level"; "3"; "-l"; "-T"; "-R";
                        "-J"; "--joliet-long"; "-V"; "BACKUP"; "photos"]];
        Run ["growisofs"; "--dry-run"; "--speed=4"; "-M"; "/dev/sr1";
             "-iso-level"; "3"; "-l"; "-T"; "-R"; "-J"; "--joliet-long";
             "-V"; "BACKUP"; "photos"] false]
       ++ rest)%list.
Proof.
  exact (volume_id_is_read_from_sr0 sample_oracle sample_format_size
           More.append_unnamed (sample_world ["n"])
           ("BACKUP" ++ String newline EmptyString) EmptyString
           eq_refl eq_refl eq_refl).
Defined.

Lemma bytes_to_be_written_reads_sectors_witness :
  fst (get_bytes_to_be_written sample_oracle sample_config
         (sample_world []))
  = Done 2048000.
Proof.
  rewrite (proj1 (bytes_to_be_written_reads_sectors sample_oracle
                    sample_config (sample_world [])
                    ("1000" ++ String newline EmptyString) EmptyString
                    eq_refl)
             "1000" eq_refl eq_refl).
  reflexivity.
Defined.

Lemma command_options_round_trip_witness :
  from_command_option "Append" = Ok APPEND.
Proof.
  apply (proj2 (proj2 command_options_round_trip) "Append" APPEND).
  reflexivity.
Defined.

Lemma warning_follows_dry_run_witness :
  print_disc_write_error_messages sample_oracle sample_config
    (sample_world [])
  = (Done tt,
     mkWorld []
       [Run ["growisofs"; "--dry-run"; "--speed=4"; "-M"; "/dev/sr1";
             "-iso-level"; "3"; "-l"; "-T"; "-R"; "-J"; "--joliet-long";
             "-V"; "BACKUP"; "photos"; "notes.txt"] true]).
Proof.
  apply (proj1 (warning_follows_dry_run sample_oracle sample_config "BACKUP"
                  (sample_world []) eq_refl)
           EmptyString EmptyString eq_refl).
  intros (a & b & H). destruct a; discriminate H.
Defined.

Lemma volume_id_is_settled_witness :
  fst (disc_write_impl sample_oracle More.append_unnamed false true
         (sample_world []))
  = Fail (Exn ValueError).
Proof.
  rewrite (proj1 (volume_id_is_settled sample_oracle More.append_unnamed
                    (sample_world []))
             eq_refl false true).
  reflexivity.
Defined.

End Instances.

Lemma trailing_white_space_is_ignored_witness :
  parse_media_info More.overfull_crlf = parse_media_info Cases.overfull.
Proof.
  apply (trailing_white_space_is_ignored Cases.overfull More.overfull_crlf).
  vm_compute.
  repeat (constructor;
          [first [ exists More.cr; split; reflexivity
                 | exists EmptyString; split; reflexivity ] |]).
  constructor.
Defined.

Lemma skipped_lines_do_not_matter_witness :
  parse_media_info More.overfull_noisy = parse_media_info Cases.overfull.
Proof.
  apply (skipped_lines_do_not_matter More.overfull_noisy Cases.overfull).
  vm_compute. reflexivity.
Defined.
